(** * The zip renderer of the modular file renderer: entry sanitizer and tree builder

    A shallow embedding of [mfr/extensions/zip/render.py].  Python strings
    are modelled as [string] (sequences of 8-bit characters, so the model
    speaks about ASCII file names; [lower] leaves the other characters
    alone), integers as [Z], a node dictionary as a record whose optional
    keys are [option] fields, and the in-place construction of the tree as
    a function from the children of a node to its children after the walk.
    An exception raised by the Python code is a value of [error]. *)

From Stdlib Require Import String Ascii List ZArith Lia Bool Arith DecimalString.
Import ListNotations.

Local Open Scope list_scope.
Local Open Scope string_scope.

(** ** Exceptions *)

Inductive error : Type :=
| IndexError      (* [path_from_root[-1]] on the empty string *)
| AssertionError. (* [assert is_folder] *)

Inductive result (A : Type) : Type :=
| Ok  : A -> result A
| Err : error -> result A.

Arguments Ok {A} _.
Arguments Err {A} _.

Definition bind {A B : Type} (r : result A) (k : A -> result B) : result B :=
  match r with
  | Ok a => k a
  | Err e => Err e
  end.

Notation "x <- r ;; k" := (bind r (fun x => k))
  (at level 61, r at next level, right associativity).

(** ** The string methods the renderer calls *)

Module Str.

(** [s.startswith(prefix)] *)
Definition startswith (s prefix : string) : bool := String.prefix prefix s.

(** [s.endswith(suffix)]: the last [len(suffix)] characters are [suffix]. *)
Definition endswith (s suffix : string) : bool :=
  let n := String.length s in
  let m := String.length suffix in
  (m <=? n)%nat && (substring (n - m) m s =? suffix).

(** [s[-1]], which raises [IndexError] on the empty string. *)
Fixpoint last_char (s : string) : result ascii :=
  match s with
  | EmptyString => Err IndexError
  | String c EmptyString => Ok c
  | String _ s' => last_char s'
  end.

(** [s.split(sep)] for a one-character separator: never the empty list. *)
Fixpoint split (sep : ascii) (s : string) : list string :=
  match s with
  | EmptyString => [EmptyString]
  | String c s' =>
      if Ascii.eqb c sep then EmptyString :: split sep s'
      else match split sep s' with
           | seg :: rest => String c seg :: rest
           | [] => [String c EmptyString]
           end
  end.

(** [s.rfind(c)]: the highest index of [c] in [s], or [-1]. *)
Fixpoint rfind (c : ascii) (s : string) : Z :=
  match s with
  | EmptyString => (-1)%Z
  | String a s' =>
      let r := rfind c s' in
      if (0 <=? r)%Z then (r + 1)%Z
      else if Ascii.eqb a c then 0%Z else (-1)%Z
  end.

(** [s[:i]] and [s[i:]] for [0 <= i]. *)
Definition slice_to (s : string) (i : nat) : string := substring 0 i s.
Definition slice_from (s : string) (i : nat) : string :=
  substring i (String.length s - i) s.

(** [s.lstrip(c)] for a one-character set. *)
Fixpoint lstrip (c : ascii) (s : string) : string :=
  match s with
  | String a s' => if Ascii.eqb a c then lstrip c s' else s
  | EmptyString => EmptyString
  end.

Definition lower_ascii (c : ascii) : ascii :=
  if (Ascii.leb "A" c && Ascii.leb c "Z")%bool
  then ascii_of_nat (nat_of_ascii c + 32)
  else c.

(** [s.lower()] *)
Fixpoint lower (s : string) : string :=
  match s with
  | EmptyString => EmptyString
  | String c s' => String (lower_ascii c) (lower s')
  end.

(** ['%d' % z] *)
Definition fmt_d (z : Z) : string := NilZero.string_of_int (Z.to_int z).

(** ['%02d' % z]: at least two characters, the sign counted, padded with
    zeros on the left. *)
Definition fmt_02d (z : Z) : string :=
  let s := fmt_d z in
  if (String.length s <? 2)%nat then String "0" s else s.

End Str.

(** ** [os.path] (the POSIX flavour) *)

Module OsPath.

(** [posixpath.join(a, *p)] *)
Definition join2 (path b : string) : string :=
  if Str.startswith b "/" then b
  else if (path =? "") || Str.endswith path "/" then path ++ b
  else path ++ "/" ++ b.

Definition join (a : string) (p : list string) : string :=
  fold_left join2 p a.

(** The loop of [genericpath._splitext] that skips the leading dots of the
    last component: [n] is the number of indexes left before [dotIndex]. *)
Fixpoint splitext_loop (p : string) (filenameIndex dotIndex n : nat)
  : string * string :=
  match n with
  | O => (p, EmptyString)
  | S n' =>
      if negb (substring filenameIndex 1 p =? ".")
      then (Str.slice_to p dotIndex, Str.slice_from p dotIndex)
      else splitext_loop p (S filenameIndex) dotIndex n'
  end.

(** [os.path.splitext(p)] with [sep = '/'], no [altsep], [extsep = '.']. *)
Definition splitext (p : string) : string * string :=
  let sepIndex := Str.rfind "/" p in
  let dotIndex := Str.rfind "." p in
  if (sepIndex <? dotIndex)%Z then
    let filenameIndex := Z.to_nat (sepIndex + 1) in
    splitext_loop p filenameIndex (Z.to_nat dotIndex)
                  (Z.to_nat dotIndex - filenameIndex)
  else (p, EmptyString).

End OsPath.

(** ** Archive entries: the fields of [zipfile.ZipInfo] the renderer reads *)

Record date_time_t : Type := DateTime {
  year : Z; month : Z; day : Z; hour : Z; minute : Z; second : Z
}.

Record ZipInfo : Type := mkZipInfo {
  filename  : string;
  date_time : date_time_t;
  file_size : Z
}.

(** ** [sanitize_obj_list] *)

Fixpoint sanitize_loop (obj_list sanitized_obj_list : list ZipInfo)
  : list ZipInfo :=
  match obj_list with
  | [] => sanitized_obj_list
  | obj :: rest =>
      let obj_path := filename obj in
      if Str.startswith obj_path "__MACOSX/" then
        sanitize_loop rest sanitized_obj_list
      else if (obj_path =? ".DS_Store") || Str.endswith obj_path "/.DS_Store"
      then sanitize_loop rest sanitized_obj_list
      else sanitize_loop rest (sanitized_obj_list ++ [obj])%list
  end.

Definition sanitize_obj_list (obj_list : list ZipInfo) : list ZipInfo :=
  sanitize_loop obj_list [].

(** ** Tree nodes

    A node is the dictionary the template receives: ['text'] and
    ['children'] are always there, ['icon'] and ['data'] only once
    [update_node_with_attributes] has run on the node (the root has an
    ['icon'] from the start and never a ['data']). *)

Record data_t : Type := mkData {
  date : string;
  size : string
}.

#[warnings="-register-all"]
Inductive node : Type := mkNode {
  text     : string;
  icon     : option string;
  children : list node;
  data     : option data_t
}.

Definition set_children (n : node) (cs : list node) : node :=
  {| text := text n; icon := icon n; children := cs; data := data n |}.

(** ** [find_node_among_siblings], and the write through the reference
    it returns: the first sibling labelled [segment] is the one found, so
    it is the one a later mutation reaches. *)

Fixpoint find_node_among_siblings (segment : string) (siblings : list node)
  : option node :=
  match siblings with
  | [] => None
  | sibling :: rest =>
      if text sibling =? segment then Some sibling
      else find_node_among_siblings segment rest
  end.

Fixpoint store_node (segment : string) (n : node) (siblings : list node)
  : list node :=
  match siblings with
  | [] => []
  | sibling :: rest =>
      if text sibling =? segment then n :: rest
      else sibling :: store_node segment n rest
  end.

(** ** The renderer *)

Record Metadata : Type := mkMetadata {
  name : string;
  ext  : string
}.

Record ZipRenderer : Type := mkZipRenderer {
  metadata   : Metadata;
  assets_url : string
}.

Section Renderer.

(** [mfr.core.utils.sizeof_fmt], [os.path.isfile] and
    [os.path.dirname(__file__)] belong to the environment. *)
Variable sizeof_fmt : Z -> string.
Variable isfile : string -> bool.
Variable module_dir : string.

Definition icon_exists (ext : string) : bool :=
  isfile (OsPath.join module_dir
            ["static"; "img"; "file-ext-" ++ Str.lower ext ++ ".png"]).

(** ['%d-%02d-%02d %02d:%02d:%02d' % obj.date_time[:6]] *)
Definition format_date (d : date_time_t) : string :=
  Str.fmt_d (year d) ++ "-" ++ Str.fmt_02d (month d) ++ "-"
    ++ Str.fmt_02d (day d) ++ " " ++ Str.fmt_02d (hour d) ++ ":"
    ++ Str.fmt_02d (minute d) ++ ":" ++ Str.fmt_02d (second d).

Definition format_size (file_size : Z) : string :=
  if (file_size =? 0)%Z then "" else sizeof_fmt file_size.

Definition icon_path_of (self : ZipRenderer) (obj : ZipInfo)
           (is_folder : bool) : string :=
  if is_folder then assets_url self ++ "/img/folder.png"
  else
    let ext :=
      Str.lower (Str.lstrip "." (snd (OsPath.splitext (filename obj)))) in
    if icon_exists ext
    then assets_url self ++ "/img/file-ext-" ++ ext ++ ".png"
    else assets_url self ++ "/img/file-ext-generic.png".

Definition update_node_with_attributes (self : ZipRenderer) (n : node)
           (obj : ZipInfo) (is_folder : bool) : node :=
  let date := format_date (date_time obj) in
  let size := format_size (file_size obj) in
  let icon_path := icon_path_of self obj is_folder in
  {| text := text n;
     icon := Some icon_path;
     children := children n;
     data := Some {| date := date; size := size |} |}.

Definition new_node (segment : string) : node :=
  {| text := segment; icon := None; children := []; data := None |}.

(** The inner loop of [obj_list_to_tree] over [enumerate(path_segments)],
    from position [index] on, with [siblings] the children of [parent];
    the value is the children of [parent] once the loop has ended.  A
    node found is a dictionary with a ['text'] key, hence true in
    [if current_node]; [assert] is taken as run (no [-O]). *)
Fixpoint walk (self : ZipRenderer) (obj : ZipInfo) (is_folder : bool)
         (last_index index : Z) (path_segments : list string)
         (siblings : list node) : result (list node) :=
  match path_segments with
  | [] => Ok siblings
  | segment :: rest =>
      match find_node_among_siblings segment siblings with
      | Some current_node =>
          if (index =? last_index)%Z then
            if is_folder then
              Ok (store_node segment
                    (update_node_with_attributes self current_node obj
                                                 is_folder)
                    siblings)
            else Err AssertionError
          else
            cs <- walk self obj is_folder last_index (index + 1) rest
                       (children current_node) ;;
            Ok (store_node segment (set_children current_node cs) siblings)
      | None =>
          if (index =? last_index)%Z then
            Ok (siblings
                  ++ [update_node_with_attributes self (new_node segment)
                                                  obj is_folder])%list
          else
            cs <- walk self obj is_folder last_index (index + 1) rest
                       (children (new_node segment)) ;;
            Ok (siblings ++ [set_children (new_node segment) cs])%list
      end
  end.

Definition path_segments_of (path_from_root : string) : list string :=
  filter (fun segment => negb (segment =? ""))
         (Str.split "/" path_from_root).

(** One turn of the outer loop. *)
Definition add_obj (self : ZipRenderer) (tree_root : node) (obj : ZipInfo)
  : result node :=
  let path_from_root := filename obj in
  c <- Str.last_char path_from_root ;;
  let is_folder := Ascii.eqb c "/" in
  let path_segments := path_segments_of path_from_root in
  let last_index := (Z.of_nat (List.length path_segments) - 1)%Z in
  cs <- walk self obj is_folder last_index 0 path_segments
             (children tree_root) ;;
  Ok (set_children tree_root cs).

Fixpoint add_objs (self : ZipRenderer) (tree_root : node)
         (obj_list : list ZipInfo) : result node :=
  match obj_list with
  | [] => Ok tree_root
  | obj :: rest =>
      tree_root' <- add_obj self tree_root obj ;;
      add_objs self tree_root' rest
  end.

Definition initial_root (self : ZipRenderer) : node :=
  {| text := name (metadata self) ++ ext (metadata self);
     icon := Some (assets_url self ++ "/img/file-ext-zip.png");
     children := [];
     data := None |}.

Definition obj_list_to_tree (self : ZipRenderer) (obj_list : list ZipInfo)
  : result (list node) :=
  tree_root <- add_objs self (initial_root self) obj_list ;;
  Ok [tree_root].

End Renderer.

(** ** Specification-side notions

    What the claims speak about, written without reference to how the
    code computes. *)

(** The entries the sanitizer is meant to drop. *)
Definition junk_path (path : string) : Prop :=
  (exists rest, path = "__MACOSX/" ++ rest)
  \/ path = ".DS_Store"
  \/ (exists front, path = front ++ "/.DS_Store").

Definition is_junk (path : string) : bool :=
  Str.startswith path "__MACOSX/"
  || (path =? ".DS_Store")
  || Str.endswith path "/.DS_Store".

(** A path in the tree is a list of labels read from the children of the
    root downwards; [lookup] follows it with the search the builder uses. *)
Fixpoint lookup (path : list string) (siblings : list node) : option node :=
  match path with
  | [] => None
  | segment :: rest =>
      match find_node_among_siblings segment siblings with
      | None => None
      | Some n =>
          match rest with
          | [] => Some n
          | _ :: _ => lookup rest (children n)
          end
      end
  end.

Definition present (path : list string) (siblings : list node) : bool :=
  match lookup path siblings with Some _ => true | None => false end.

Definition data_at (path : list string) (siblings : list node)
  : option data_t :=
  match lookup path siblings with Some n => data n | None => None end.

Definition icon_at (path : list string) (siblings : list node)
  : option string :=
  match lookup path siblings with Some n => icon n | None => None end.

(** What [obs] sees of the node at a path. *)
Definition obs_at {A : Type} (obs : node -> option A) (q : list string)
           (siblings : list node) : option A :=
  match lookup q siblings with Some n => obs n | None => None end.

(** [q] is an initial part of [segs]. *)
Fixpoint prefixb (q segs : list string) : bool :=
  match q, segs with
  | [], _ => true
  | _ :: _, [] => false
  | s :: q', t :: segs' => (s =? t) && prefixb q' segs'
  end.

(** No two children of one node share a label, anywhere below. *)
#[warnings="-register-all"]
Inductive unique_labels : list node -> Prop :=
| unique_labels_intro (siblings : list node) :
    NoDup (map text siblings) ->
    Forall (fun n => unique_labels (children n)) siblings ->
    unique_labels siblings.

(** The number of nodes of a tree. *)
Fixpoint node_count (n : node) : nat :=
  match n with
  | mkNode _ _ cs _ => S (list_sum (map node_count cs))
  end.

Definition count_all (siblings : list node) : nat :=
  list_sum (map node_count siblings).

(** The walk of [obj_list_to_tree] read as a recursion on the segments:
    [found_or_new] is the node the walk stands on after a segment, [put]
    writes a node back under its label (in place when the label is there,
    at the end otherwise), [attach] is [update_node_with_attributes] for
    the entry at hand. *)
Definition found_or_new (segment : string) (siblings : list node) : node :=
  match find_node_among_siblings segment siblings with
  | Some n => n
  | None => {| text := segment; icon := None; children := []; data := None |}
  end.

Definition put (n : node) (siblings : list node) : list node :=
  match find_node_among_siblings (text n) siblings with
  | Some _ => store_node (text n) n siblings
  | None => (siblings ++ [n])%list
  end.

Fixpoint insert (attach : node -> node) (is_folder : bool)
         (path_segments : list string) (siblings : list node)
  : result (list node) :=
  match path_segments with
  | [] => Ok siblings
  | segment :: rest =>
      let n := found_or_new segment siblings in
      match rest with
      | [] =>
          match find_node_among_siblings segment siblings with
          | Some _ =>
              if is_folder then Ok (put (attach n) siblings)
              else Err AssertionError
          | None => Ok (put (attach n) siblings)
          end
      | _ :: _ =>
          cs <- insert attach is_folder rest (children n) ;;
          Ok (put (set_children n cs) siblings)
      end
  end.

(** The entry lists on which the build goes through, told from the paths
    alone: every entry is a folder (its path ends with '/') or has
    segments that are not an initial part of the segments of an earlier
    entry.  [seen] holds the segment lists of the entries before. *)
Fixpoint accepts (seen : list (list string)) (obj_list : list ZipInfo)
  : bool :=
  match obj_list with
  | [] => true
  | obj :: rest =>
      let segs := path_segments_of (filename obj) in
      (Str.endswith (filename obj) "/"
       || negb (existsb (prefixb segs) seen))
      && accepts (segs :: seen) rest
  end.

(** The text before and the text after the last [c] of [s]. *)
Fixpoint rpartition (c : ascii) (s : string) : option (string * string) :=
  match s with
  | EmptyString => None
  | String a s' =>
      match rpartition c s' with
      | Some (front, back) => Some (String a front, back)
      | None => if Ascii.eqb a c then Some (EmptyString, s') else None
      end
  end.

Fixpoint all_dots (s : string) : bool :=
  match s with
  | EmptyString => true
  | String a s' => Ascii.eqb a "." && all_dots s'
  end.

(** The base name of a path: the text after its last '/'. *)
Definition basename (path : string) : string :=
  match rpartition "/" path with
  | Some (_, back) => back
  | None => path
  end.

Definition last_segment (path : string) : string :=
  last (path_segments_of path) "".

(** The extension as the specification words it: the text after the last
    '.' of the segment, empty if there is none. *)
Definition text_after_last_dot (segment : string) : string :=
  match rpartition "." segment with
  | Some (_, back) => back
  | None => ""
  end.

(** The extension [os.path.splitext] finds: as above, but only when some
    character other than '.' stands before that last '.'. *)
Definition extension_of (segment : string) : string :=
  match rpartition "." segment with
  | Some (front, back) => if all_dots front then "" else back
  | None => ""
  end.

(** Decimal digits, for the shape of the date text. *)
Definition digit (z : Z) : ascii := ascii_of_nat (48 + Z.to_nat z).

Definition two_digits (z : Z) : string :=
  String (digit (z / 10)) (String (digit (z mod 10)) "").

Definition four_digits (z : Z) : string :=
  String (digit (z / 1000))
    (String (digit (z / 100 mod 10))
       (String (digit (z / 10 mod 10)) (String (digit (z mod 10)) ""))).

(** An environment to run the builder in: a renderer, a size formatter,
    and an asset directory that holds icons for "txt" and "gitignore"
    only. *)
Definition sample_renderer : ZipRenderer :=
  {| metadata := {| name := "archive"; ext := ".zip" |};
     assets_url := "/assets" |}.

Definition sample_sizeof_fmt (num : Z) : string := Str.fmt_d num ++ "B".

Definition sample_isfile (path : string) : bool :=
  (path =? "/mfr/static/img/file-ext-txt.png")
  || (path =? "/mfr/static/img/file-ext-gitignore.png").

Definition sample_dir : string := "/mfr".

Definition sample_entry (path : string) : ZipInfo :=
  {| filename := path;
     date_time := DateTime 2020 1 2 3 4 5;
     file_size := 0 |}.

Definition sample_tree (obj_list : list ZipInfo) : result (list node) :=
  obj_list_to_tree sample_sizeof_fmt sample_isfile sample_dir
                   sample_renderer obj_list.

Definition sample_add : node -> ZipInfo -> result node :=
  add_obj sample_sizeof_fmt sample_isfile sample_dir sample_renderer.

Definition sample_root (cs : list node) : node :=
  {| text := "archive.zip";
     icon := Some "/assets/img/file-ext-zip.png";
     children := cs;
     data := None |}.

Definition sample_data : option data_t :=
  Some {| date := "2020-01-02 03:04:05"; size := "" |}.

(** The trees of the entry lists ["a/b"], ["a"], ["a"; "a/"] and
    ["x/y/z.txt"] in that environment. *)
Definition sample_node_a : node :=
  {| text := "a"; icon := None;
     children :=
       [ {| text := "b"; icon := Some "/assets/img/file-ext-generic.png";
            children := []; data := sample_data |} ];
     data := None |}.

Definition sample_tree_a_b : node := sample_root [sample_node_a].

Definition sample_file_a : node :=
  {| text := "a"; icon := Some "/assets/img/file-ext-generic.png";
     children := []; data := sample_data |}.

Definition sample_folder_a : node :=
  {| text := "a"; icon := Some "/assets/img/folder.png";
     children := []; data := sample_data |}.

Definition sample_node_x : node :=
  {| text := "x"; icon := None;
     children :=
       [ {| text := "y"; icon := None;
            children :=
              [ {| text := "z.txt";
                   icon := Some "/assets/img/file-ext-txt.png";
                   children := []; data := sample_data |} ];
            data := None |} ];
     data := None |}.

(** ** [render], from the entry list of the archive to the call of the
    template: the archive reader ([ZipFile(...).filelist]) gives
    [filelist], the template engine is [template_render data base]. *)
Definition render (template_render : list node -> string -> string)
           (sizeof_fmt : Z -> string) (isfile : string -> bool)
           (module_dir : string) (self : ZipRenderer)
           (filelist : list ZipInfo) : result string :=
  let obj_list := sanitize_obj_list filelist in
  obj_tree <- obj_list_to_tree sizeof_fmt isfile module_dir self obj_list ;;
  Ok (template_render obj_tree (assets_url self)).

(** The labels of a list in the order of their first appearance. *)
Definition add_if_new (seen : list string) (s : string) : list string :=
  if existsb (String.eqb s) seen then seen else (seen ++ [s])%list.

Definition first_seen (labels : list string) : list string :=
  fold_left add_if_new labels [].

(** The first segment of every entry that has one. *)
Definition first_segments (obj_list : list ZipInfo) : list string :=
  flat_map (fun obj => match path_segments_of (filename obj) with
                       | [] => []
                       | s :: _ => [s]
                       end) obj_list.

(** A character occurs in a string. *)
Fixpoint occurs (c : ascii) (s : string) : bool :=
  match s with
  | EmptyString => false
  | String a s' => Ascii.eqb a c || occurs c s'
  end.

Definition sample_template (obj_tree : list node) (base : string) : string :=
  base ++ ":" ++ String.concat "," (map text obj_tree).

(** A path made of '/' characters only. *)
Fixpoint only_slashes (s : string) : bool :=
  match s with
  | EmptyString => true
  | String a s' => Ascii.eqb a "/" && only_slashes s'
  end.

(** * Facts about strings *)

Module StrFacts.

Lemma startswith_iff (s p : string) :
  Str.startswith s p = true <-> exists rest, s = p ++ rest.
Proof.
  unfold Str.startswith. revert s.
  induction p as [|c p IH]; intros s; simpl.
  - destruct s; split; intros; eauto.
  - destruct s as [|a s]; simpl.
    + split; [discriminate | intros [r Hr]; discriminate].
    + destruct (ascii_dec c a) as [->|Hne].
      * rewrite IH. split; intros [r Hr]; exists r.
        -- now rewrite Hr.
        -- now inversion Hr.
      * split; [discriminate | intros [r Hr]; inversion Hr; congruence].
Qed.

Lemma length_app (s t : string) :
  String.length (s ++ t) = String.length s + String.length t.
Proof. induction s; simpl; congruence. Qed.

Lemma substring_full (s : string) : substring 0 (String.length s) s = s.
Proof. induction s; simpl; congruence. Qed.

Lemma substring_skip (s t : string) (m : nat) :
  substring (String.length s) m (s ++ t) = substring 0 m t.
Proof. induction s; simpl; auto. Qed.

Lemma substring_app_r (s t : string) :
  substring (String.length s) (String.length t) (s ++ t) = t.
Proof. rewrite substring_skip. apply substring_full. Qed.

Lemma substring_app_l (s t : string) :
  substring 0 (String.length s) (s ++ t) = s.
Proof. induction s; simpl; [destruct t; reflexivity | congruence]. Qed.

(** Every string is its first [k] characters followed by the others. *)
Lemma substring_split (s : string) (k : nat) :
  k <= String.length s ->
  s = substring 0 k s ++ substring k (String.length s - k) s.
Proof.
  revert k. induction s as [|a s IH]; intros k Hk; simpl in *.
  - destruct k; [reflexivity | lia].
  - destruct k as [|k]; simpl.
    + now rewrite substring_full.
    + f_equal. apply IH. lia.
Qed.

Lemma endswith_iff (s suffix : string) :
  Str.endswith s suffix = true <-> exists front, s = front ++ suffix.
Proof.
  unfold Str.endswith. rewrite andb_true_iff, Nat.leb_le, String.eqb_eq.
  split.
  - intros [Hle Hsub].
    exists (substring 0 (String.length s - String.length suffix) s).
    pose proof (substring_split s
                  (String.length s - String.length suffix)) as Hs.
    replace (String.length s - (String.length s - String.length suffix))
      with (String.length suffix) in Hs by lia.
    rewrite Hsub in Hs. apply Hs. lia.
  - intros [front ->]. rewrite length_app. split; [lia|].
    replace (String.length front + String.length suffix
             - String.length suffix) with (String.length front) by lia.
    apply substring_app_r.
Qed.

End StrFacts.

(** * The sanitizer *)

Lemma is_junk_iff (path : string) : is_junk path = true <-> junk_path path.
Proof.
  unfold is_junk, junk_path.
  rewrite !orb_true_iff, StrFacts.startswith_iff, String.eqb_eq,
    StrFacts.endswith_iff.
  tauto.
Qed.

Lemma sanitize_loop_filter (obj_list acc : list ZipInfo) :
  sanitize_loop obj_list acc
  = (acc ++ filter (fun obj => negb (is_junk (filename obj))) obj_list)%list.
Proof.
  revert acc. induction obj_list as [|obj rest IH]; intros acc; simpl.
  - now rewrite app_nil_r.
  - unfold is_junk.
    destruct (Str.startswith (filename obj) "__MACOSX/"); simpl.
    + apply IH.
    + destruct ((filename obj =? ".DS_Store")
                || Str.endswith (filename obj) "/.DS_Store"); simpl.
      * apply IH.
      * rewrite IH, <- app_assoc. reflexivity.
Qed.

(** C3.  [sanitize_obj_list] is a total function that returns the entries
    of its input, in their input order, whose path neither starts with
    "__MACOSX/", nor equals ".DS_Store", nor ends with "/.DS_Store": it is
    the filter of the input by that test, an entry is in the output exactly
    when it is in the input and its path is not one of these, and the empty
    input gives the empty output. *)
Theorem sanitize_obj_list_filter :
  forall obj_list : list ZipInfo,
    sanitize_obj_list obj_list
    = filter (fun obj => negb (is_junk (filename obj))) obj_list
    /\ (forall obj, is_junk (filename obj) = true <-> junk_path (filename obj))
    /\ (forall obj, In obj (sanitize_obj_list obj_list)
                    <-> In obj obj_list /\ ~ junk_path (filename obj))
    /\ sanitize_obj_list [] = [].
Proof.
  intros obj_list.
  assert (H : sanitize_obj_list obj_list
              = filter (fun obj => negb (is_junk (filename obj))) obj_list)
    by (unfold sanitize_obj_list; now rewrite sanitize_loop_filter).
  split; [exact H|]. split; [intros; apply is_junk_iff|]. split; [|reflexivity].
  intros obj. rewrite H, filter_In, negb_true_iff, <- is_junk_iff.
  destruct (is_junk (filename obj)); intuition congruence.
Qed.

(** * Searching and writing among siblings *)

Lemma find_text (segment : string) (siblings : list node) (n : node) :
  find_node_among_siblings segment siblings = Some n -> text n = segment.
Proof.
  induction siblings as [|sibling rest IH]; simpl; [discriminate|].
  destruct (text sibling =? segment) eqn:E; [|exact IH].
  intros [= <-]. now apply String.eqb_eq.
Qed.

Lemma find_in (segment : string) (siblings : list node) (n : node) :
  find_node_among_siblings segment siblings = Some n -> In n siblings.
Proof.
  induction siblings as [|sibling rest IH]; simpl; [discriminate|].
  destruct (text sibling =? segment); [intros [= <-]; now left | auto].
Qed.

Lemma find_none (segment : string) (siblings : list node) :
  find_node_among_siblings segment siblings = None
  <-> ~ In segment (map text siblings).
Proof.
  induction siblings as [|sibling rest IH]; simpl; [tauto|].
  destruct (String.eqb_spec (text sibling) segment) as [E|E].
  - split; [discriminate | tauto].
  - rewrite IH. tauto.
Qed.

Lemma found_or_new_text (segment : string) (siblings : list node) :
  text (found_or_new segment siblings) = segment.
Proof.
  unfold found_or_new.
  destruct (find_node_among_siblings segment siblings) eqn:E; [|reflexivity].
  eapply find_text, E.
Qed.

Lemma find_store (s : string) (n : node) (siblings : list node) (m : node) :
  find_node_among_siblings (text n) siblings = Some m ->
  find_node_among_siblings s (store_node (text n) n siblings)
  = if text n =? s then Some n else find_node_among_siblings s siblings.
Proof.
  induction siblings as [|sibling rest IH]; simpl; [discriminate|].
  destruct (String.eqb_spec (text sibling) (text n)) as [E|E]; simpl.
  - intros _. rewrite E. now destruct (text n =? s).
  - intros H. specialize (IH H).
    destruct (String.eqb_spec (text sibling) s) as [E'|E'].
    + destruct (String.eqb_spec (text n) s); [congruence | reflexivity].
    + exact IH.
Qed.

Lemma find_app (s : string) (n : node) (siblings : list node) :
  find_node_among_siblings s (siblings ++ [n])
  = match find_node_among_siblings s siblings with
    | Some m => Some m
    | None => if text n =? s then Some n else None
    end.
Proof.
  induction siblings as [|sibling rest IH]; simpl; [reflexivity|].
  now destruct (text sibling =? s).
Qed.

(** After [put n], a search finds [n] under its label and what was there
    before under any other. *)
Lemma find_put (s : string) (n : node) (siblings : list node) :
  find_node_among_siblings s (put n siblings)
  = if text n =? s then Some n else find_node_among_siblings s siblings.
Proof.
  unfold put.
  destruct (find_node_among_siblings (text n) siblings) as [m|] eqn:E.
  - eapply find_store, E.
  - rewrite find_app.
    destruct (String.eqb_spec (text n) s) as [<-|Hne].
    + now rewrite E.
    + now destruct (find_node_among_siblings s siblings).
Qed.

Lemma lookup_nil_siblings (path : list string) : lookup path [] = None.
Proof. now destruct path. Qed.

Lemma lookup_cons (s t : string) (q : list string) (siblings : list node) :
  lookup (s :: t :: q) siblings
  = lookup (t :: q) (children (found_or_new s siblings)).
Proof.
  unfold found_or_new. cbn [lookup].
  now destruct (find_node_among_siblings s siblings).
Qed.

Lemma lookup_one (s : string) (siblings : list node) :
  lookup [s] siblings = find_node_among_siblings s siblings.
Proof. cbn. now destruct (find_node_among_siblings s siblings). Qed.

Lemma lookup_put (s : string) (q : list string) (n : node)
      (siblings : list node) :
  lookup (s :: q) (put n siblings)
  = if text n =? s
    then match q with [] => Some n | _ :: _ => lookup q (children n) end
    else lookup (s :: q) siblings.
Proof.
  cbn [lookup]. rewrite find_put. now destruct (text n =? s).
Qed.

Lemma map_text_store (n : node) (siblings : list node) :
  map text (store_node (text n) n siblings) = map text siblings.
Proof.
  induction siblings as [|sibling rest IH]; simpl; [reflexivity|].
  destruct (String.eqb_spec (text sibling) (text n)) as [E|E]; simpl;
    congruence.
Qed.

Lemma store_forall (P : node -> Prop) (s : string) (n : node)
      (siblings : list node) :
  P n -> Forall P siblings -> Forall P (store_node s n siblings).
Proof.
  intros Hn. induction 1 as [|sibling rest Hs Hr IH]; simpl; [constructor|].
  destruct (text sibling =? s); constructor; auto.
Qed.

Lemma put_unique (n : node) (siblings : list node) :
  unique_labels siblings -> unique_labels (children n) ->
  unique_labels (put n siblings).
Proof.
  intros [cs Hnd Hall] Hn. unfold put.
  destruct (find_node_among_siblings (text n) cs) eqn:E; constructor.
  - now rewrite map_text_store.
  - now apply store_forall.
  - rewrite map_app. simpl. apply NoDup_app; [exact Hnd | repeat constructor; intros [] | ].
    intros x Hx [<-|[]]. now apply find_none in E.
  - apply Forall_app. split; [exact Hall | now constructor].
Qed.

Lemma count_all_store (n m : node) (siblings : list node) :
  find_node_among_siblings (text n) siblings = Some m ->
  node_count n = node_count m ->
  count_all (store_node (text n) n siblings) = count_all siblings.
Proof.
  unfold count_all.
  induction siblings as [|sibling rest IH]; simpl; [discriminate|].
  destruct (text sibling =? text n); simpl.
  - intros [= ->] ->. reflexivity.
  - intros H1 H2. now rewrite IH.
Qed.

Lemma count_all_put_found (n m : node) (siblings : list node) :
  find_node_among_siblings (text n) siblings = Some m ->
  node_count n = node_count m ->
  count_all (put n siblings) = count_all siblings.
Proof.
  intros H Hc. unfold put. rewrite H. eapply count_all_store; eauto.
Qed.

Lemma node_count_children (n : node) :
  node_count n = S (count_all (children n)).
Proof. now destruct n. Qed.

Lemma unique_labels_found (s : string) (siblings : list node) :
  unique_labels siblings ->
  unique_labels (children (found_or_new s siblings)).
Proof.
  intros [cs Hnd Hall]. unfold found_or_new.
  destruct (find_node_among_siblings s cs) eqn:E.
  - rewrite Forall_forall in Hall. eapply Hall, find_in, E.
  - repeat constructor.
Qed.

Lemma prefixb_nil_r (q : list string) : q <> [] -> prefixb q [] = false.
Proof. destruct q; [congruence | reflexivity]. Qed.

(** * The walk as a recursion on the segments *)

Section Insert.

Variable attach : node -> node.
Variable is_folder : bool.
Hypothesis attach_text : forall n, text (attach n) = text n.
Hypothesis attach_children : forall n, children (attach n) = children n.

(** The walk fails in one way only: an entry that is not a folder ends
    on a path that is in the tree. *)
Lemma insert_fails (segs : list string) :
  forall (siblings : list node) (e : error),
    insert attach is_folder segs siblings = Err e
    <-> e = AssertionError /\ is_folder = false
        /\ present segs siblings = true.
Proof.
  induction segs as [|seg rest IH]; intros siblings e.
  - cbn. split; [discriminate | intros (_ & _ & H); discriminate].
  - destruct rest as [|t r].
    + unfold present. rewrite lookup_one. cbn.
      destruct (find_node_among_siblings seg siblings);
        destruct is_folder; split;
        try discriminate; try (intros (_ & H1 & H2); discriminate).
      * intros [= <-]. auto.
      * intros (-> & _). reflexivity.
    + unfold present. rewrite lookup_cons.
      change (insert attach is_folder (seg :: t :: r) siblings)
        with (cs <- insert attach is_folder (t :: r)
                      (children (found_or_new seg siblings)) ;;
              Ok (put (set_children (found_or_new seg siblings) cs)
                      siblings)).
      specialize (IH (children (found_or_new seg siblings)) e).
      unfold present in IH.
      destruct (insert attach is_folder (t :: r)
                  (children (found_or_new seg siblings))) as [cs|e'];
        cbn.
      * split; [discriminate|]. intros H. apply IH in H. discriminate.
      * split.
        -- intros [= ->]. now apply IH.
        -- intros H. apply IH in H. exact H.
Qed.

(** The paths of the tree after the walk: those before, and the initial
    parts of the segments walked. *)
Lemma insert_present (segs : list string) :
  forall (siblings cs' : list node),
    insert attach is_folder segs siblings = Ok cs' ->
    forall q, q <> [] ->
      present q cs' = present q siblings || prefixb q segs.
Proof.
  induction segs as [|seg rest IH]; intros siblings cs' H q Hq.
  - cbn in H. injection H as <-.
    now rewrite prefixb_nil_r, orb_false_r.
  - destruct q as [|s q']; [congruence|].
    assert (Hput : forall n, text n = seg -> cs' = put n siblings ->
              present (s :: q') cs'
              = if seg =? s
                then match q' with
                     | [] => true
                     | _ :: _ => present q' (children n)
                     end
                else present (s :: q') siblings).
    { intros n Hn ->. unfold present. rewrite lookup_put, Hn.
      destruct (seg =? s); [now destruct q'|reflexivity]. }
    cbn [prefixb]. rewrite (String.eqb_sym s seg).
    destruct rest as [|t r].
    + assert (Hcs : cs' = put (attach (found_or_new seg siblings))
                            siblings).
      { cbn in H.
        destruct (find_node_among_siblings seg siblings);
          [destruct is_folder|]; congruence. }
      rewrite (Hput _ (eq_trans (attach_text _)
                                (found_or_new_text seg siblings)) Hcs).
      destruct (String.eqb_spec seg s) as [<-|Hne]; cbn [andb].
      * destruct q' as [|t' q'']; cbn [prefixb].
        -- now rewrite orb_true_r.
        -- rewrite attach_children, orb_false_r. unfold present.
           now rewrite lookup_cons.
      * now rewrite orb_false_r.
    + change (insert attach is_folder (seg :: t :: r) siblings)
        with (cs <- insert attach is_folder (t :: r)
                      (children (found_or_new seg siblings)) ;;
              Ok (put (set_children (found_or_new seg siblings) cs)
                      siblings)) in H.
      destruct (insert attach is_folder (t :: r)
                  (children (found_or_new seg siblings))) as [cs|e'] eqn:E;
        cbn in H; [|discriminate].
      injection H as <-.
      rewrite (Hput (set_children (found_or_new seg siblings) cs)
                    (found_or_new_text seg siblings) eq_refl).
      destruct (String.eqb_spec seg s) as [<-|Hne]; cbn [andb].
      * destruct q' as [|t' q''].
        -- now rewrite orb_true_r.
        -- cbn [children set_children].
           rewrite (IH _ _ E (t' :: q'')) by congruence.
           unfold present. now rewrite lookup_cons.
      * now rewrite orb_false_r.
Qed.

End Insert.

Section InsertResult.

Variable attach : node -> node.
Variable is_folder : bool.
Hypothesis attach_text : forall n, text (attach n) = text n.
Hypothesis attach_children : forall n, children (attach n) = children n.

Lemma insert_step (seg t : string) (r : list string)
      (siblings : list node) :
  insert attach is_folder (seg :: t :: r) siblings
  = (cs <- insert attach is_folder (t :: r)
             (children (found_or_new seg siblings)) ;;
     Ok (put (set_children (found_or_new seg siblings) cs) siblings)).
Proof. reflexivity. Qed.

Lemma insert_last (seg : string) (siblings cs' : list node) :
  insert attach is_folder [seg] siblings = Ok cs' ->
  cs' = put (attach (found_or_new seg siblings)) siblings.
Proof.
  cbn. destruct (find_node_among_siblings seg siblings);
    [destruct is_folder|]; congruence.
Qed.

Lemma attach_found_text (seg : string) (siblings : list node) :
  text (attach (found_or_new seg siblings)) = seg.
Proof. now rewrite attach_text, found_or_new_text. Qed.

(** The node at the end of the segments, when it was there before, is
    the same node with the attributes attached. *)
Lemma insert_lookup_end (segs : list string) :
  forall (siblings cs' : list node) (n : node),
    insert attach is_folder segs siblings = Ok cs' ->
    lookup segs siblings = Some n ->
    lookup segs cs' = Some (attach n).
Proof.
  induction segs as [|seg rest IH]; intros siblings cs' n H Hn;
    [discriminate|].
  destruct rest as [|t r].
  - apply insert_last in H. subst cs'.
    rewrite lookup_put, attach_found_text, String.eqb_refl.
    rewrite lookup_one in Hn. unfold found_or_new. now rewrite Hn.
  - rewrite insert_step in H. rewrite lookup_cons in Hn.
    destruct (insert attach is_folder (t :: r)
                (children (found_or_new seg siblings))) as [cs|e'] eqn:E;
      cbn in H; [|discriminate].
    injection H as <-.
    rewrite lookup_put. cbn [text set_children].
    rewrite found_or_new_text, String.eqb_refl. cbn [children].
    eapply IH; eauto.
Qed.

(** No node is added when the path was in the tree. *)
Lemma insert_count (segs : list string) :
  forall (siblings cs' : list node),
    insert attach is_folder segs siblings = Ok cs' ->
    present segs siblings = true ->
    count_all cs' = count_all siblings.
Proof.
  induction segs as [|seg rest IH]; intros siblings cs' H Hp;
    [discriminate|].
  unfold present in Hp.
  destruct rest as [|t r].
  - apply insert_last in H. subst cs'.
    rewrite lookup_one in Hp.
    destruct (find_node_among_siblings seg siblings) as [m|] eqn:Em;
      [|discriminate].
    assert (Hn0 : found_or_new seg siblings = m)
      by (unfold found_or_new; now rewrite Em).
    assert (Ht : text m = seg) by (eapply find_text; exact Em).
    rewrite Hn0. apply count_all_put_found with m.
    + rewrite attach_text, Ht. exact Em.
    + now rewrite !node_count_children, attach_children.
  - rewrite insert_step in H. rewrite lookup_cons in Hp.
    destruct (insert attach is_folder (t :: r)
                (children (found_or_new seg siblings))) as [cs|e'] eqn:E;
      cbn in H; [|discriminate].
    injection H as <-.
    assert (Hp' : present (t :: r) (children (found_or_new seg siblings))
                  = true)
      by (unfold present;
          now destruct (lookup (t :: r)
                          (children (found_or_new seg siblings)))).
    specialize (IH _ _ E Hp').
    destruct (find_node_among_siblings seg siblings) as [m|] eqn:Em.
    + assert (Hn0 : found_or_new seg siblings = m)
        by (unfold found_or_new; now rewrite Em).
      assert (Ht : text m = seg) by (eapply find_text; exact Em).
      rewrite Hn0 in *. apply count_all_put_found with m.
      * cbn [text set_children]. rewrite Ht. exact Em.
      * rewrite !node_count_children. cbn [children set_children].
        now rewrite IH.
    + unfold found_or_new in Hp. rewrite Em in Hp. discriminate.
Qed.

(** Labels stay unique among siblings. *)
Lemma insert_unique (segs : list string) :
  forall (siblings cs' : list node),
    insert attach is_folder segs siblings = Ok cs' ->
    unique_labels siblings -> unique_labels cs'.
Proof.
  induction segs as [|seg rest IH]; intros siblings cs' H Hu.
  - cbn in H. congruence.
  - destruct rest as [|t r].
    + apply insert_last in H. subst cs'.
      apply put_unique; [exact Hu|].
      rewrite attach_children. now apply unique_labels_found.
    + rewrite insert_step in H.
      destruct (insert attach is_folder (t :: r)
                  (children (found_or_new seg siblings))) as [cs|e'] eqn:E;
        cbn in H; [|discriminate].
      injection H as <-.
      apply put_unique; [exact Hu|]. cbn [children set_children].
      eapply IH; [exact E|]. now apply unique_labels_found.
Qed.

(** What a node carries after the walk, for an observation [obs] of a
    node that [attach] sets to [a0], that a fresh node lacks and that
    does not depend on the children. *)
Variable A : Type.
Variable obs : node -> option A.
Variable a0 : A.
Hypothesis obs_attach : forall n, obs (attach n) = Some a0.
Hypothesis obs_children : forall n cs, obs (set_children n cs) = obs n.
Hypothesis obs_new :
  forall s, obs {| text := s; icon := None; children := [];
                   data := None |} = None.

Lemma obs_at_cons (s t : string) (q : list string)
      (siblings : list node) :
  obs_at obs (s :: t :: q) siblings
  = obs_at obs (t :: q) (children (found_or_new s siblings)).
Proof. unfold obs_at. now rewrite lookup_cons. Qed.

Lemma obs_found (s : string) (siblings : list node) :
  obs (found_or_new s siblings) = obs_at obs [s] siblings.
Proof.
  unfold obs_at, found_or_new. rewrite lookup_one.
  destruct (find_node_among_siblings s siblings); [reflexivity|].
  apply obs_new.
Qed.

Lemma insert_obs_at (segs : list string) :
  forall (siblings cs' : list node),
    insert attach is_folder segs siblings = Ok cs' ->
    forall q, q <> [] ->
      obs_at obs q cs'
      = if list_eq_dec string_dec q segs then Some a0
        else obs_at obs q siblings.
Proof.
  induction segs as [|seg rest IH]; intros siblings cs' H q Hq.
  - cbn in H. injection H as <-.
    destruct (list_eq_dec string_dec q []); congruence.
  - destruct q as [|s q']; [congruence|].
    destruct rest as [|t r].
    + apply insert_last in H. subst cs'.
      unfold obs_at at 1. rewrite lookup_put, attach_found_text.
      destruct (String.eqb_spec seg s) as [<-|Hne].
      * destruct q' as [|t' q''].
        -- rewrite obs_attach.
           destruct (list_eq_dec string_dec [seg] [seg]); congruence.
        -- rewrite attach_children.
           destruct (list_eq_dec string_dec (seg :: t' :: q'') [seg]);
             [discriminate|].
           now rewrite obs_at_cons.
      * destruct (list_eq_dec string_dec (s :: q') [seg]);
          [congruence | reflexivity].
    + rewrite insert_step in H.
      destruct (insert attach is_folder (t :: r)
                  (children (found_or_new seg siblings))) as [cs|e'] eqn:E;
        cbn in H; [|discriminate].
      injection H as <-.
      unfold obs_at at 1. rewrite lookup_put. cbn [text set_children].
      rewrite found_or_new_text.
      destruct (String.eqb_spec seg s) as [<-|Hne].
      * destruct q' as [|t' q''].
        -- change (obs (set_children (found_or_new seg siblings) cs)
                   = if list_eq_dec string_dec [seg] (seg :: t :: r)
                     then Some a0 else obs_at obs [seg] siblings).
           rewrite obs_children, obs_found.
           destruct (list_eq_dec string_dec [seg] (seg :: t :: r));
             [discriminate | reflexivity].
        -- cbn [children set_children].
           fold (obs_at obs (t' :: q'') cs).
           rewrite (IH _ _ E (t' :: q'')) by congruence.
           rewrite obs_at_cons.
           destruct (list_eq_dec string_dec (t' :: q'') (t :: r));
             destruct (list_eq_dec string_dec (seg :: t' :: q'')
                                   (seg :: t :: r));
             congruence.
      * destruct (list_eq_dec string_dec (s :: q') (seg :: t :: r));
          [congruence | reflexivity].
Qed.

End InsertResult.

(** * Paths and their segments *)

Module PathFacts.

Lemma split_nonempty (sep : ascii) (s : string) : Str.split sep s <> [].
Proof.
  destruct s as [|a s]; cbn; [discriminate|].
  destruct (Ascii.eqb a sep); [discriminate|].
  destruct (Str.split sep s); discriminate.
Qed.

Lemma rpartition_app (c : ascii) (s front back : string) :
  rpartition c s = Some (front, back) -> s = front ++ String c back.
Proof.
  revert front back. induction s as [|a s IH]; intros front back; cbn;
    [discriminate|].
  destruct (rpartition c s) as [[f b]|].
  - intros [= <- <-]. cbn. f_equal. now apply IH.
  - destruct (Ascii.eqb_spec a c) as [->|]; [|discriminate].
    now intros [= <- <-].
Qed.

Lemma rpartition_back (c : ascii) (s front back : string) :
  rpartition c s = Some (front, back) -> rpartition c back = None.
Proof.
  revert front back. induction s as [|a s IH]; intros front back; cbn;
    [discriminate|].
  destruct (rpartition c s) as [[f b]|] eqn:E.
  - intros [= <- <-]. eapply IH. reflexivity.
  - destruct (Ascii.eqb a c); [|discriminate].
    now intros [= <- <-].
Qed.

(** Splitting at the separators: the last piece is the text after the
    last separator. *)
Lemma split_rpartition (sep : ascii) (s : string) :
  Str.split sep s
  = match rpartition sep s with
    | Some (front, back) => (Str.split sep front ++ [back])%list
    | None => [s]
    end.
Proof.
  induction s as [|a s IH]; [reflexivity|].
  cbn [Str.split rpartition]. rewrite IH.
  destruct (rpartition sep s) as [[f b]|].
  - cbn [Str.split]. destruct (Ascii.eqb a sep); [reflexivity|].
    pose proof (split_nonempty sep f) as Hne.
    destruct (Str.split sep f); [congruence | reflexivity].
  - destruct (Ascii.eqb a sep); reflexivity.
Qed.

Lemma last_char_app (front : string) (c : ascii) :
  Str.last_char (front ++ String c "") = Ok c.
Proof.
  induction front as [|a front IH]; [reflexivity|].
  cbn -[Str.last_char]. cbn [Str.last_char].
  destruct (front ++ String c "") eqn:E; [|exact IH].
  destruct front; discriminate.
Qed.

Lemma last_char_empty (s : string) (e : error) :
  Str.last_char s = Err e -> s = "".
Proof.
  induction s as [|a s IH]; [reflexivity|]. cbn.
  destruct s; [discriminate|]. intros H. apply IH in H. discriminate.
Qed.

Lemma basename_nonempty (path : string) (c : ascii) :
  Str.last_char path = Ok c -> c <> "/"%char -> basename path <> "".
Proof.
  intros Hc Hne. unfold basename.
  destruct (rpartition "/" path) as [[f b]|] eqn:E.
  - intros ->. apply rpartition_app in E. subst path.
    rewrite last_char_app in Hc. congruence.
  - intros ->. discriminate.
Qed.

Lemma last_char_inv (s : string) (c : ascii) :
  Str.last_char s = Ok c -> exists front, s = front ++ String c "".
Proof.
  induction s as [|a s IH]; [discriminate|]. cbn.
  destruct s as [|b s].
  - intros [= ->]. now exists "".
  - intros H. destruct (IH H) as [front Hf]. exists (String a front).
    cbn. now rewrite <- Hf.
Qed.

(** A path ends with '/' when its last character is '/'. *)
Lemma endswith_slash (path : string) (c : ascii) :
  Str.last_char path = Ok c ->
  Str.endswith path "/" = Ascii.eqb c "/".
Proof.
  intros Hc. destruct (Ascii.eqb_spec c "/") as [->|Hne].
  - apply StrFacts.endswith_iff. now apply last_char_inv.
  - apply not_true_is_false. intros H.
    apply StrFacts.endswith_iff in H. destruct H as [front ->].
    rewrite last_char_app in Hc. congruence.
Qed.

(** The segments of the path of a file end with its base name. *)
Lemma segments_of_file (path : string) (c : ascii) :
  Str.last_char path = Ok c -> c <> "/"%char ->
  exists front,
    path_segments_of path = (front ++ [basename path])%list.
Proof.
  intros Hc Hne. pose proof (basename_nonempty _ _ Hc Hne) as Hb.
  unfold path_segments_of, basename in *. rewrite split_rpartition.
  destruct (rpartition "/" path) as [[f b]|].
  - rewrite filter_app. cbn.
    destruct (String.eqb_spec b ""); [congruence|]. cbn. eauto.
  - cbn. destruct (String.eqb_spec path ""); [congruence|]. cbn.
    now exists [].
Qed.

Lemma last_segment_of_file (path : string) (c : ascii) :
  Str.last_char path = Ok c -> c <> "/"%char ->
  last_segment path = basename path.
Proof.
  intros Hc Hne. destruct (segments_of_file _ _ Hc Hne) as [front H].
  unfold last_segment. rewrite H. apply last_last.
Qed.

Lemma file_has_segments (path : string) (c : ascii) :
  Str.last_char path = Ok c -> c <> "/"%char ->
  path_segments_of path <> [].
Proof.
  intros Hc Hne. destruct (segments_of_file _ _ Hc Hne) as [front H].
  rewrite H. now destruct front.
Qed.

End PathFacts.

(** * The tree builder *)

Lemma put_found (n m : node) (seg : string) (siblings : list node) :
  find_node_among_siblings seg siblings = Some m -> text n = seg ->
  put n siblings = store_node seg n siblings.
Proof. intros H <-. unfold put. now rewrite H. Qed.

Lemma put_new (n : node) (seg : string) (siblings : list node) :
  find_node_among_siblings seg siblings = None -> text n = seg ->
  put n siblings = (siblings ++ [n])%list.
Proof. intros H <-. unfold put. now rewrite H. Qed.

Lemma set_children_same (n : node) : set_children n (children n) = n.
Proof. now destruct n. Qed.

Section Build.

Variable sizeof_fmt : Z -> string.
Variable isfile : string -> bool.
Variable module_dir : string.
Variable self : ZipRenderer.

Local Notation "'update'" :=
  (update_node_with_attributes sizeof_fmt isfile module_dir self).
Local Notation "'attach_of' obj is_folder" :=
  (fun n => update n obj is_folder)
    (at level 10, obj at level 9, is_folder at level 9).

(** The loop over [enumerate(path_segments)] is the recursion on the
    segments: [index == last_index] holds on the last segment only. *)
Lemma walk_insert (obj : ZipInfo) (is_folder : bool) (last_index : Z)
      (segs : list string) :
  forall (index : Z) (siblings : list node),
    last_index = (index + Z.of_nat (List.length segs) - 1)%Z ->
    walk sizeof_fmt isfile module_dir self obj is_folder last_index index
         segs siblings
    = insert (attach_of obj is_folder) is_folder segs siblings.
Proof.
  induction segs as [|seg rest IH]; intros index siblings Hl;
    [reflexivity|].
  cbn [walk insert]. unfold found_or_new.
  destruct rest as [|t r].
  - replace last_index with index by (cbn in Hl; lia).
    rewrite Z.eqb_refl.
    destruct (find_node_among_siblings seg siblings) as [m|] eqn:E.
    + destruct is_folder; [|reflexivity]. f_equal. symmetry.
      eapply put_found; [exact E|]. cbn. eapply find_text, E.
    + f_equal. symmetry. now apply put_new with (seg := seg).
  - assert (Hne : (index =? last_index)%Z = false)
      by (apply Z.eqb_neq; cbn [List.length] in Hl; lia).
    rewrite Hne.
    assert (Hl' : last_index
                  = (index + 1 + Z.of_nat (List.length (t :: r)) - 1)%Z)
      by (cbn [List.length] in *; lia).
    destruct (find_node_among_siblings seg siblings) as [m|] eqn:E.
    + rewrite (IH _ _ Hl').
      destruct (insert (attach_of obj is_folder) is_folder (t :: r)
                       (children m)); cbn; [|reflexivity].
      f_equal. symmetry. eapply put_found; [exact E|].
      cbn. eapply find_text, E.
    + rewrite (IH _ _ Hl').
      destruct (insert (attach_of obj is_folder) is_folder (t :: r) _);
        cbn; [|reflexivity].
      f_equal. symmetry. now apply put_new with (seg := seg).
Qed.

(** One turn of the outer loop, through [insert]. *)
Lemma add_obj_insert (tree_root : node) (obj : ZipInfo) :
  add_obj sizeof_fmt isfile module_dir self tree_root obj
  = (c <- Str.last_char (filename obj) ;;
     cs <- insert (attach_of obj (Ascii.eqb c "/")) (Ascii.eqb c "/")
                  (path_segments_of (filename obj))
                  (children tree_root) ;;
     Ok (set_children tree_root cs)).
Proof.
  unfold add_obj. destruct (Str.last_char (filename obj)); cbn;
    [|reflexivity].
  rewrite walk_insert by lia. reflexivity.
Qed.

Lemma add_obj_ok (tree_root root' : node) (obj : ZipInfo) :
  add_obj sizeof_fmt isfile module_dir self tree_root obj = Ok root' ->
  exists c cs,
    Str.last_char (filename obj) = Ok c
    /\ insert (attach_of obj (Ascii.eqb c "/")) (Ascii.eqb c "/")
              (path_segments_of (filename obj)) (children tree_root)
       = Ok cs
    /\ root' = set_children tree_root cs.
Proof.
  rewrite add_obj_insert.
  destruct (Str.last_char (filename obj)) as [c|]; cbn; [|discriminate].
  destruct (insert _ _ _ _) as [cs|] eqn:E; cbn; [|discriminate].
  intros [= <-]. eauto.
Qed.

(** An entry without segments leaves the tree as it is, unless its path
    is empty. *)
Lemma add_obj_no_segments (tree_root : node) (obj : ZipInfo) :
  filename obj <> "" ->
  path_segments_of (filename obj) = [] ->
  add_obj sizeof_fmt isfile module_dir self tree_root obj = Ok tree_root.
Proof.
  intros Hne Hs. rewrite add_obj_insert, Hs.
  destruct (Str.last_char (filename obj)) as [c|e] eqn:E; cbn.
  - now rewrite set_children_same.
  - apply PathFacts.last_char_empty in E. congruence.
Qed.

Lemma add_obj_empty_path (tree_root : node) (obj : ZipInfo) :
  filename obj = "" ->
  add_obj sizeof_fmt isfile module_dir self tree_root obj
  = Err IndexError.
Proof. intros H. unfold add_obj. now rewrite H. Qed.

(** The root keeps its label, its icon and its lack of data. *)
Lemma add_objs_root (obj_list : list ZipInfo) :
  forall tree_root root',
    add_objs sizeof_fmt isfile module_dir self tree_root obj_list
    = Ok root' ->
    text root' = text tree_root /\ icon root' = icon tree_root
    /\ data root' = data tree_root.
Proof.
  induction obj_list as [|obj rest IH]; intros tree_root root' H; cbn in H.
  - injection H as <-. auto.
  - destruct (add_obj _ _ _ _ tree_root obj) as [r1|] eqn:E; cbn in H;
      [|discriminate].
    apply add_obj_ok in E. destruct E as (c & cs & _ & _ & ->).
    apply IH in H. exact H.
Qed.

Lemma add_objs_unique (obj_list : list ZipInfo) :
  forall tree_root root',
    add_objs sizeof_fmt isfile module_dir self tree_root obj_list
    = Ok root' ->
    unique_labels (children tree_root) -> unique_labels (children root').
Proof.
  induction obj_list as [|obj rest IH]; intros tree_root root' H Hu;
    cbn in H.
  - now injection H as <-.
  - destruct (add_obj _ _ _ _ tree_root obj) as [r1|] eqn:E; cbn in H;
      [|discriminate].
    apply add_obj_ok in E. destruct E as (c & cs & _ & Hi & ->).
    apply (IH _ _ H). cbn [children set_children].
    eapply insert_unique; [| exact Hi | exact Hu]. reflexivity.
Qed.

End Build.

Section BuildInvariants.

Variable sizeof_fmt : Z -> string.
Variable isfile : string -> bool.
Variable module_dir : string.
Variable self : ZipRenderer.

Local Notation "'update'" :=
  (update_node_with_attributes sizeof_fmt isfile module_dir self).
Local Notation "'add'" := (add_obj sizeof_fmt isfile module_dir self).
Local Notation "'adds'" := (add_objs sizeof_fmt isfile module_dir self).
Local Notation "'segs_of' obj" := (path_segments_of (filename obj))
  (at level 10, obj at level 9).

(** The data an entry attaches. *)
Local Notation "'data_of' obj" :=
  {| date := format_date (date_time obj);
     size := format_size sizeof_fmt (file_size obj) |}
  (at level 10, obj at level 9).

Lemma add_obj_present (tree_root root' : node) (obj : ZipInfo) :
  add tree_root obj = Ok root' ->
  forall q, q <> [] ->
    present q (children root')
    = present q (children tree_root) || prefixb q (segs_of obj).
Proof.
  intros H q Hq. apply add_obj_ok in H. destruct H as (c & cs & _ & Hi & ->).
  cbn [children set_children].
  eapply insert_present; [| | exact Hi | exact Hq]; reflexivity.
Qed.

Lemma add_obj_data (tree_root root' : node) (obj : ZipInfo) :
  add tree_root obj = Ok root' ->
  forall q, q <> [] ->
    data_at q (children root')
    = if list_eq_dec string_dec q (segs_of obj) then Some (data_of obj)
      else data_at q (children tree_root).
Proof.
  intros H q Hq. apply add_obj_ok in H. destruct H as (c & cs & _ & Hi & ->).
  cbn [children set_children].
  exact (insert_obs_at (fun n => update n obj (Ascii.eqb c "/"))
           (Ascii.eqb c "/") (fun _ => eq_refl) (fun _ => eq_refl)
           data_t data (data_of obj)
           (fun _ => eq_refl) (fun _ _ => eq_refl) (fun _ => eq_refl)
           _ _ _ Hi q Hq).
Qed.

Lemma add_objs_present (obj_list : list ZipInfo) :
  forall tree_root root',
    adds tree_root obj_list = Ok root' ->
    forall q, q <> [] ->
      present q (children root')
      = present q (children tree_root)
        || existsb (fun obj => prefixb q (segs_of obj)) obj_list.
Proof.
  induction obj_list as [|obj rest IH]; intros tree_root root' H q Hq;
    cbn in H.
  - injection H as <-. cbn. now rewrite orb_false_r.
  - destruct (add tree_root obj) as [r1|] eqn:E; cbn in H; [|discriminate].
    rewrite (IH _ _ H q Hq), (add_obj_present _ _ _ E q Hq). cbn [existsb].
    now rewrite orb_assoc.
Qed.

Lemma add_objs_data (obj_list : list ZipInfo) :
  forall tree_root root',
    adds tree_root obj_list = Ok root' ->
    forall q, q <> [] ->
      data_at q (children root') <> None
      <-> data_at q (children tree_root) <> None
          \/ exists obj, In obj obj_list /\ segs_of obj = q.
Proof.
  induction obj_list as [|obj rest IH]; intros tree_root root' H q Hq;
    cbn in H.
  - injection H as <-. cbn. firstorder.
  - destruct (add tree_root obj) as [r1|] eqn:E; cbn in H; [|discriminate].
    rewrite (IH _ _ H q Hq), (add_obj_data _ _ _ E q Hq).
    destruct (list_eq_dec string_dec q (segs_of obj)) as [->|Hne].
    + split; [|intros _; left; discriminate].
      intros _. right. exists obj. split; [now left | reflexivity].
    + split.
      * intros [H1|(o & Ho & Hs)]; [now left|].
        right. exists o. split; [now right | exact Hs].
      * intros [H1|(o & [<-|Ho] & Hs)]; [now left | congruence |].
        right. now exists o.
Qed.

(** Without empty paths the build goes through exactly on the lists
    [accepts] describes, and fails by the assertion only. *)
Lemma add_objs_accepts (obj_list : list ZipInfo) :
  forall seen tree_root,
    Forall (fun obj => filename obj <> "") obj_list ->
    (forall q, q <> [] ->
       present q (children tree_root) = existsb (prefixb q) seen) ->
    (accepts seen obj_list = true
     <-> exists root', adds tree_root obj_list = Ok root')
    /\ (forall e, adds tree_root obj_list = Err e -> e = AssertionError).
Proof.
  induction obj_list as [|obj rest IH]; intros seen tree_root Hall Inv.
  - cbn. split; [split; eauto | discriminate].
  - inversion Hall as [|? ? Hne Hrest]; subst.
    cbn [accepts add_objs]. rewrite add_obj_insert.
    destruct (Str.last_char (filename obj)) as [c|e] eqn:Ec;
      [|apply PathFacts.last_char_empty in Ec; congruence].
    cbn [bind]. rewrite (PathFacts.endswith_slash _ _ Ec).
    destruct (insert _ _ (segs_of obj) (children tree_root))
      as [cs|e] eqn:Ei; cbn [bind].
    + assert (Hgo : Ascii.eqb c "/"
                    || negb (existsb (prefixb (segs_of obj)) seen) = true).
      { destruct (Ascii.eqb_spec c "/") as [->|Hc]; [reflexivity|]. cbn.
        destruct (existsb (prefixb (segs_of obj)) seen) eqn:Ex;
          [|reflexivity].
        pose proof (PathFacts.file_has_segments _ _ Ec Hc) as Hs.
        rewrite <- (Inv _ Hs) in Ex.
        assert (He : insert (fun n => update n obj false) false
                            (segs_of obj) (children tree_root)
                     = Err AssertionError)
          by (apply insert_fails; auto).
        congruence. }
      rewrite Hgo, andb_true_l. apply IH; [exact Hrest|]. intros q Hq.
      cbn [children set_children existsb].
      rewrite (insert_present (fun n => update n obj (Ascii.eqb c "/"))
                 (Ascii.eqb c "/") (fun _ => eq_refl) (fun _ => eq_refl)
                 _ _ _ Ei q Hq).
      rewrite (Inv q Hq). apply orb_comm.
    + apply insert_fails in Ei. destruct Ei as (-> & Hf & Hp).
      assert (Hs : segs_of obj <> []).
      { intros Hs. rewrite Hs in Hp. discriminate. }
      rewrite (Inv _ Hs) in Hp. rewrite Hf, Hp. cbn. split.
      * split; [discriminate | intros [r Hr]; discriminate].
      * now intros e' [= <-].
Qed.

End BuildInvariants.

(** * The claims on the tree builder *)

Lemma prefixb_refl (q : list string) : prefixb q q = true.
Proof.
  induction q as [|s q IH]; [reflexivity|]. cbn.
  now rewrite String.eqb_refl.
Qed.

Lemma present_lookup (q : list string) (siblings : list node) :
  present q siblings = true -> exists n, lookup q siblings = Some n.
Proof.
  unfold present. destruct (lookup q siblings); [eauto | discriminate].
Qed.

Section Claims.

Variable sizeof_fmt : Z -> string.
Variable isfile : string -> bool.
Variable module_dir : string.
Variable self : ZipRenderer.

Local Notation "'update'" :=
  (update_node_with_attributes sizeof_fmt isfile module_dir self).
Local Notation "'add'" := (add_obj sizeof_fmt isfile module_dir self).
Local Notation "'adds'" := (add_objs sizeof_fmt isfile module_dir self).
Local Notation "'build'" :=
  (obj_list_to_tree sizeof_fmt isfile module_dir self).
Local Notation "'segs_of' obj" := (path_segments_of (filename obj))
  (at level 10, obj at level 9).
Local Notation "'data_of' obj" :=
  {| date := format_date (date_time obj);
     size := format_size sizeof_fmt (file_size obj) |}
  (at level 10, obj at level 9).
Local Notation "'root_with' cs" :=
  {| text := name (metadata self) ++ ext (metadata self);
     icon := Some (assets_url self ++ "/img/file-ext-zip.png");
     children := cs;
     data := None |}
  (at level 10, cs at level 9).

Lemma build_ok (obj_list : list ZipInfo) (roots : list node) :
  build obj_list = Ok roots ->
  exists root,
    adds (initial_root self) obj_list = Ok root /\ roots = [root].
Proof.
  unfold obj_list_to_tree.
  destruct (adds (initial_root self) obj_list) as [root|]; cbn;
    [|discriminate].
  intros [= <-]. eauto.
Qed.

Lemma add_objs_app (l1 l2 : list ZipInfo) :
  forall tree_root,
    adds tree_root (l1 ++ l2)
    = (r <- adds tree_root l1 ;; adds r l2).
Proof.
  induction l1 as [|obj rest IH]; intros tree_root; [reflexivity|].
  cbn [app add_objs]. destruct (add tree_root obj); cbn; [apply IH|].
  reflexivity.
Qed.

(** A folder entry that ends on a node of the tree goes through, leaves
    the number of nodes as it was and attaches its attributes to that
    node. *)
Lemma add_folder_on_node (tree_root n : node) (obj : ZipInfo) :
  Str.last_char (filename obj) = Ok "/"%char ->
  lookup (segs_of obj) (children tree_root) = Some n ->
  exists root',
    add tree_root obj = Ok root'
    /\ lookup (segs_of obj) (children root') = Some (update n obj true)
    /\ node_count root' = node_count tree_root.
Proof.
  intros Hc Hn. rewrite add_obj_insert, Hc. cbn [bind].
  rewrite Ascii.eqb_refl.
  destruct (insert (fun n => update n obj true) true (segs_of obj)
                   (children tree_root)) as [cs|e] eqn:Ei.
  - exists (set_children tree_root cs). cbn [bind children set_children].
    split; [reflexivity|]. split.
    + eapply (insert_lookup_end (fun n => update n obj true));
        [| exact Ei | exact Hn]; reflexivity.
    + rewrite !node_count_children. cbn [children set_children]. f_equal.
      eapply (insert_count (fun n => update n obj true));
        [| | exact Ei |]; try reflexivity.
      unfold present. now rewrite Hn.
  - apply insert_fails in Ei. destruct Ei as (_ & Hf & _). discriminate.
Qed.

Lemma add_file_on_node (tree_root n : node) (obj : ZipInfo) (c : ascii) :
  Str.last_char (filename obj) = Ok c -> c <> "/"%char ->
  lookup (segs_of obj) (children tree_root) = Some n ->
  add tree_root obj = Err AssertionError.
Proof.
  intros Hc Hne Hn. rewrite add_obj_insert, Hc. cbn [bind].
  apply Ascii.eqb_neq in Hne. rewrite Hne.
  assert (He : insert (fun n => update n obj false) false (segs_of obj)
                      (children tree_root) = Err AssertionError).
  { apply insert_fails. unfold present. now rewrite Hn. }
  now rewrite He.
Qed.

Lemma initial_invariant (q : list string) :
  q <> [] ->
  present q (children (initial_root self)) = existsb (prefixb q) [].
Proof. intros _. unfold present. cbn. now rewrite lookup_nil_siblings. Qed.

Lemma build_shape (obj_list : list ZipInfo) (roots : list node) :
  build obj_list = Ok roots -> exists cs, roots = [root_with cs].
Proof.
  intros H. apply build_ok in H. destruct H as (root & H & ->).
  apply add_objs_root in H. destruct H as (Ht & Hi & Hd).
  exists (children root). destruct root; cbn in *. now subst.
Qed.

(** C1.  For the one entry "x/y/z.txt" the root has the single child "x",
    a node without icon and data, whose single child "y" is such a node
    too, whose single child is the leaf "z.txt" carrying an icon (that of
    the extension "txt" when there is one, the generic one otherwise), the
    date text and the size text of the entry. *)
Theorem nested_entry_makes_bare_folders (d : date_time_t) (sz : Z) :
  build [ {| filename := "x/y/z.txt"; date_time := d; file_size := sz |} ]
  = Ok [ root_with
           [ {| text := "x"; icon := None;
                children :=
                  [ {| text := "y"; icon := None;
                       children :=
                         [ {| text := "z.txt";
                              icon :=
                                Some
                                  (if icon_exists isfile module_dir "txt"
                                   then assets_url self
                                        ++ "/img/file-ext-txt.png"
                                   else assets_url self
                                        ++ "/img/file-ext-generic.png");
                              children := [];
                              data :=
                                Some {| date := format_date d;
                                        size := format_size sizeof_fmt sz |}
                           |} ];
                       data := None |} ];
                data := None |} ] ].
Proof. reflexivity. Qed.

(** C2, amended.  When the path of an entry ends on a node that is in the
    tree, the build fails with the assertion error if the entry is not a
    folder (its path does not end with '/'), whatever the node is;
    otherwise it attaches the folder icon and the date and size of the
    entry to that node, which keeps its label and children, and adds no
    node. *)
Theorem entry_on_node_asserts_entry_is_folder
        (tree_root n : node) (obj : ZipInfo) (c : ascii) :
  Str.last_char (filename obj) = Ok c ->
  lookup (segs_of obj) (children tree_root) = Some n ->
  (c <> "/"%char -> add tree_root obj = Err AssertionError)
  /\ (c = "/"%char ->
      exists root',
        add tree_root obj = Ok root'
        /\ lookup (segs_of obj) (children root')
           = Some {| text := text n;
                     icon := Some (assets_url self ++ "/img/folder.png");
                     children := children n;
                     data := Some (data_of obj) |}
        /\ node_count root' = node_count tree_root).
Proof.
  intros Hc Hn. split.
  - intros Hne. eapply add_file_on_node; eauto.
  - intros ->. exact (add_folder_on_node _ _ _ Hc Hn).
Qed.

(** C4, on the empty path.  The entry with the empty path is not skipped:
    reading its last character raises the index error and the build
    fails, while the list without that entry builds the bare root. *)
Theorem empty_path_raises (d : date_time_t) (sz : Z) :
  build [ {| filename := ""; date_time := d; file_size := sz |} ]
  = Err IndexError
  /\ build [] = Ok [root_with []].
Proof. split; reflexivity. Qed.

(** The other paths without segments, such as "/" and "//", are skipped:
    the tree is the one built without the entry. *)
Lemma no_segments_skipped (before after : list ZipInfo) (obj : ZipInfo) :
  filename obj <> "" ->
  segs_of obj = [] ->
  build (before ++ obj :: after) = build (before ++ after).
Proof.
  intros Hne Hs. unfold obj_list_to_tree. rewrite !add_objs_app.
  destruct (adds (initial_root self) before) as [r|]; cbn [bind];
    [|reflexivity].
  cbn [add_objs]. now rewrite add_obj_no_segments.
Qed.

(** C5.  In every tree the build returns, no two children of a node have
    the same label, at any depth; and the entries "a/", "a/" give a root
    with exactly one child, labelled "a". *)
Theorem sibling_labels_unique :
  (forall obj_list roots,
      build obj_list = Ok roots ->
      Forall (fun root => unique_labels (children root)) roots)
  /\ (forall d1 s1 d2 s2,
        build [ {| filename := "a/"; date_time := d1; file_size := s1 |};
                {| filename := "a/"; date_time := d2; file_size := s2 |} ]
        = Ok [ root_with
                 [ {| text := "a";
                      icon := Some (assets_url self ++ "/img/folder.png");
                      children := [];
                      data :=
                        Some {| date := format_date d2;
                                size := format_size sizeof_fmt s2 |} |} ] ]).
Proof.
  split; [|reflexivity].
  intros obj_list roots H. apply build_ok in H.
  destruct H as (root & H & ->). constructor; [|constructor].
  eapply add_objs_unique; [exact H|]. repeat constructor.
Qed.

(** C7, amended.  On an entry list without an empty path the build
    returns exactly when no entry that is not a folder has its segments
    as an initial part of the segments of an earlier entry, and fails with
    the assertion error otherwise; whenever it returns, on any list, it
    returns exactly one root node, which carries the root label, the
    archive icon and no data; and it returns on the empty list. *)
Theorem one_root_on_accepted_lists (obj_list : list ZipInfo) :
  Forall (fun obj => filename obj <> "") obj_list ->
  (accepts [] obj_list = true
   <-> exists cs, build obj_list = Ok [root_with cs])
  /\ (accepts [] obj_list = false <-> build obj_list = Err AssertionError)
  /\ (forall roots, build obj_list = Ok roots ->
                    exists cs, roots = [root_with cs])
  /\ build [] = Ok [root_with []].
Proof.
  intros Hall.
  destruct (add_objs_accepts sizeof_fmt isfile module_dir self obj_list
              [] (initial_root self) Hall initial_invariant)
    as [Hacc Herr].
  assert (H1 : accepts [] obj_list = true
               <-> exists cs, build obj_list = Ok [root_with cs]).
  { rewrite Hacc. split.
    - intros [root Hr].
      assert (Hb : build obj_list = Ok [root])
        by (unfold obj_list_to_tree; now rewrite Hr).
      destruct (build_shape _ _ Hb) as [cs [= ->]]. eauto.
    - intros [cs Hb]. apply build_ok in Hb.
      destruct Hb as (root & Hr & _). eauto. }
  split; [exact H1|]. split; [|split; [apply build_shape | reflexivity]].
  split.
  - intros Hf. unfold obj_list_to_tree.
    destruct (adds (initial_root self) obj_list) as [root|e] eqn:Ha.
    + assert (accepts [] obj_list = true) by (apply Hacc; eauto).
      congruence.
    + cbn. now rewrite (Herr e eq_refl).
  - intros He. apply not_true_is_false. intros Ha.
    apply H1 in Ha. destruct Ha as [cs Hcs]. congruence.
Qed.

(** C9, amended.  In every tree the build returns the root carries a
    label, an icon and children and no data, and below the root the node
    at a path carries data exactly when that path is the segment list of
    some entry: a folder that no entry names, standing only on the way to
    other entries, carries none. *)
Theorem data_on_entry_nodes_only (obj_list : list ZipInfo) (root : node) :
  build obj_list = Ok [root] ->
  data root = None
  /\ icon root = Some (assets_url self ++ "/img/file-ext-zip.png")
  /\ forall q, q <> [] ->
       (data_at q (children root) <> None
        <-> exists obj, In obj obj_list /\ segs_of obj = q).
Proof.
  intros H. destruct (build_shape _ _ H) as [cs [= ->]].
  split; [reflexivity|]. split; [reflexivity|]. intros q Hq.
  apply build_ok in H. destruct H as (root & H & [= <-]).
  rewrite (add_objs_data _ _ _ _ _ _ _ H q Hq). cbn [children initial_root].
  unfold data_at at 1. rewrite lookup_nil_siblings. intuition congruence.
Qed.

(** C10.  When some entry that is not a folder has gone into the tree and
    a folder entry with the same segments comes after it, the build does
    not fail and adds no node: the node at that path keeps its label and
    children, its icon becomes the folder icon and its data the date and
    size of the folder entry. *)
Theorem folder_entry_overwrites_file_node
        (obj_list : list ZipInfo) (file folder : ZipInfo) (c : ascii)
        (tree_root : node) :
  adds (initial_root self) obj_list = Ok tree_root ->
  In file obj_list ->
  Str.last_char (filename file) = Ok c -> c <> "/"%char ->
  Str.last_char (filename folder) = Ok "/"%char ->
  segs_of folder = segs_of file ->
  exists n root',
    lookup (segs_of folder) (children tree_root) = Some n
    /\ build (obj_list ++ [folder]) = Ok [root']
    /\ lookup (segs_of folder) (children root')
       = Some {| text := text n;
                 icon := Some (assets_url self ++ "/img/folder.png");
                 children := children n;
                 data := Some (data_of folder) |}
    /\ node_count root' = node_count tree_root.
Proof.
  intros Hb Hin Hc Hne Hf Hs.
  pose proof (PathFacts.file_has_segments _ _ Hc Hne) as Hq.
  assert (Hp : present (segs_of folder) (children tree_root) = true).
  { rewrite Hs, (add_objs_present _ _ _ _ _ _ _ Hb _ Hq).
    apply orb_true_iff. right. apply existsb_exists.
    exists file. split; [exact Hin | apply prefixb_refl]. }
  apply present_lookup in Hp. destruct Hp as [n Hn].
  destruct (add_folder_on_node _ _ _ Hf Hn) as (root' & Ha & Hl & Hcount).
  exists n, root'. split; [exact Hn|]. split; [|split; assumption].
  unfold obj_list_to_tree. rewrite add_objs_app, Hb. cbn [bind add_objs].
  now rewrite Ha.
Qed.

End Claims.

(** * [os.path.splitext] and the extension of the last segment *)

Module SplitextFacts.

Lemma append_assoc (s t u : string) : (s ++ t) ++ u = s ++ t ++ u.
Proof. induction s; cbn; congruence. Qed.

Lemma append_empty_r (s : string) : s ++ "" = s.
Proof. induction s; cbn; congruence. Qed.

Lemma substring_zero (s : string) (i : nat) : substring i 0 s = "".
Proof.
  revert i. induction s as [|a s IH]; intros [|i]; cbn; auto.
Qed.

Lemma rfind_rpartition (c : ascii) (s : string) :
  Str.rfind c s
  = match rpartition c s with
    | Some (front, _) => Z.of_nat (String.length front)
    | None => (-1)%Z
    end.
Proof.
  induction s as [|a s IH]; [reflexivity|]. cbn [Str.rfind rpartition].
  rewrite IH. destruct (rpartition c s) as [[f b]|].
  - destruct (Z.leb_spec 0 (Z.of_nat (String.length f))); [|lia].
    cbn [String.length]. lia.
  - cbn. now destruct (Ascii.eqb a c).
Qed.

Lemma rpartition_append (c : ascii) (s t : string) :
  rpartition c (s ++ t)
  = match rpartition c t with
    | Some (front, back) => Some (s ++ front, back)
    | None =>
        match rpartition c s with
        | Some (front, back) => Some (front, back ++ t)
        | None => None
        end
    end.
Proof.
  induction s as [|a s IH]; cbn.
  - now destruct (rpartition c t) as [[u x]|].
  - rewrite IH.
    destruct (rpartition c t) as [[u x]|];
      destruct (rpartition c s) as [[u' x']|];
      destruct (Ascii.eqb a c); reflexivity.
Qed.

Lemma lstrip_no_sep (c : ascii) (s : string) :
  rpartition c s = None -> Str.lstrip c s = s.
Proof.
  destruct s as [|a s]; [reflexivity|]. cbn.
  destruct (rpartition c s) as [[u x]|]; [discriminate|].
  now destruct (Ascii.eqb a c).
Qed.

(** The loop over the characters [u] that stand between the last '/' and
    the last '.': it gives up when they are all dots. *)
Lemma splitext_loop_dots (u : string) :
  forall (pre rest : string) (dotIndex : nat),
    OsPath.splitext_loop (pre ++ u ++ rest) (String.length pre) dotIndex
                         (String.length u)
    = if all_dots u then (pre ++ u ++ rest, "")
      else (Str.slice_to (pre ++ u ++ rest) dotIndex,
            Str.slice_from (pre ++ u ++ rest) dotIndex).
Proof.
  induction u as [|a u IH]; intros pre rest dotIndex; [reflexivity|].
  cbn [String.length OsPath.splitext_loop all_dots].
  assert (Hc : substring (String.length pre) 1 (pre ++ String a u ++ rest)
               = String a "").
  { rewrite StrFacts.substring_skip. cbn. now rewrite substring_zero. }
  rewrite Hc. destruct (Ascii.eqb_spec a ".") as [->|Hne].
  - assert (He : (String "." "" =? ".") = true) by reflexivity.
    rewrite He. cbn [negb andb].
    specialize (IH (pre ++ ".") rest dotIndex).
    rewrite StrFacts.length_app, Nat.add_1_r, append_assoc in IH.
    exact IH.
  - assert (He : (String a "" =? ".") = false)
      by (apply String.eqb_neq; congruence).
    now rewrite He.
Qed.

(** The extension [splitext] returns, read on a path cut after its last
    '/': [dir] is empty or ends with '/', [base] has no '/'. *)
Lemma splitext_cut (dir base : string) :
  dir = "" \/ (exists f, dir = f ++ "/") ->
  rpartition "/" base = None ->
  snd (OsPath.splitext (dir ++ base))
  = match rpartition "." base with
    | Some (front, back) =>
        if all_dots front then "" else String "." back
    | None => ""
    end.
Proof.
  intros Hdir Hbase. unfold OsPath.splitext.
  assert (Hsep : Str.rfind "/" (dir ++ base)
                 = (Z.of_nat (String.length dir) - 1)%Z).
  { rewrite rfind_rpartition, rpartition_append, Hbase.
    destruct Hdir as [->|[f ->]]; [reflexivity|].
    rewrite rpartition_append.
    change (rpartition "/" "/") with (Some ("", "")). cbv beta iota.
    rewrite append_empty_r, StrFacts.length_app.
    cbn [String.length]. lia. }
  rewrite Hsep, rfind_rpartition, rpartition_append.
  destruct (rpartition "." base) as [[u x]|] eqn:Eb.
  - rewrite StrFacts.length_app.
    destruct (Z.ltb_spec (Z.of_nat (String.length dir) - 1)
                (Z.of_nat (String.length dir + String.length u))); [|lia].
    replace (Z.to_nat (Z.of_nat (String.length dir) - 1 + 1))
      with (String.length dir) by lia.
    rewrite Nat2Z.id.
    replace (String.length dir + String.length u - String.length dir)
      with (String.length u) by lia.
    apply PathFacts.rpartition_app in Eb. subst base.
    rewrite splitext_loop_dots.
    destruct (all_dots u); [reflexivity|]. cbn [snd].
    unfold Str.slice_from. rewrite <- append_assoc.
    rewrite <- StrFacts.length_app.
    rewrite !StrFacts.length_app.
    replace (String.length dir + String.length u
             + String.length (String "." x)
             - (String.length dir + String.length u))
      with (String.length (String "." x)) by lia.
    rewrite <- StrFacts.length_app. apply StrFacts.substring_app_r.
  - destruct (rpartition "." dir) as [[u x]|] eqn:Ed.
    + apply PathFacts.rpartition_app in Ed.
      assert (Hlen : String.length dir
                     = String.length u + S (String.length x))
        by (rewrite Ed, StrFacts.length_app; reflexivity).
      destruct (Z.ltb_spec (Z.of_nat (String.length dir) - 1)
                  (Z.of_nat (String.length u))); [lia | reflexivity].
    + destruct (Z.ltb_spec (Z.of_nat (String.length dir) - 1) (-1));
        [lia | reflexivity].
Qed.

(** Every path is cut in that way, after its last '/'. *)
Lemma path_cut (path : string) :
  exists dir,
    path = dir ++ basename path
    /\ (dir = "" \/ exists f, dir = f ++ "/")
    /\ rpartition "/" (basename path) = None.
Proof.
  unfold basename. destruct (rpartition "/" path) as [[f b]|] eqn:E.
  - exists (f ++ "/"). split; [|split].
    + rewrite append_assoc. now apply PathFacts.rpartition_app.
    + right. eauto.
    + eapply PathFacts.rpartition_back, E.
  - exists "". auto.
Qed.

(** The extension the renderer looks an icon up for. *)
Lemma extension_of_basename (path : string) :
  Str.lstrip "." (snd (OsPath.splitext path))
  = extension_of (basename path).
Proof.
  destruct (path_cut path) as (dir & Hp & Hdir & Hbase).
  rewrite Hp at 1. rewrite (splitext_cut _ _ Hdir Hbase).
  unfold extension_of.
  destruct (rpartition "." (basename path)) as [[u x]|] eqn:E;
    [|reflexivity].
  destruct (all_dots u); [reflexivity|]. cbn [Str.lstrip].
  rewrite Ascii.eqb_refl. apply lstrip_no_sep.
  eapply PathFacts.rpartition_back, E.
Qed.

End SplitextFacts.

(** * The attributes attached to a node *)

Lemma lower_ascii_twice (c : ascii) :
  Str.lower_ascii (Str.lower_ascii c) = Str.lower_ascii c.
Proof. destruct c as [[] [] [] [] [] [] [] []]; reflexivity. Qed.

Lemma lower_twice (s : string) : Str.lower (Str.lower s) = Str.lower s.
Proof.
  induction s as [|c s IH]; [reflexivity|]. cbn.
  now rewrite lower_ascii_twice, IH.
Qed.

Lemma fmt_02d_two_digits (z : Z) :
  (0 <= z <= 99)%Z -> Str.fmt_02d z = two_digits z.
Proof.
  intros Hz.
  assert (Hall : forallb (fun n => Str.fmt_02d (Z.of_nat n)
                                   =? two_digits (Z.of_nat n))
                         (seq 0 100) = true)
    by (vm_compute; reflexivity).
  rewrite forallb_forall in Hall. specialize (Hall (Z.to_nat z)).
  rewrite Z2Nat.id in Hall by lia.
  apply String.eqb_eq, Hall, in_seq. lia.
Qed.

Lemma fmt_d_four_digits (z : Z) :
  (1000 <= z <= 9999)%Z -> Str.fmt_d z = four_digits z.
Proof.
  intros Hz.
  assert (Hall : forallb
                   (fun a =>
                      forallb
                        (fun b =>
                           let y := (1000 + 100 * Z.of_nat a
                                     + Z.of_nat b)%Z in
                           Str.fmt_d y =? four_digits y)
                        (seq 0 100))
                   (seq 0 90) = true)
    by (vm_compute; reflexivity).
  rewrite forallb_forall in Hall.
  pose proof (Z.div_mod (z - 1000) 100 ltac:(lia)) as Hdm.
  pose proof (Z.mod_pos_bound (z - 1000) 100 ltac:(lia)) as Hm.
  assert (Hq : (0 <= (z - 1000) / 100 < 90)%Z)
    by (split; [apply Z.div_pos; lia | apply Z.div_lt_upper_bound; lia]).
  specialize (Hall (Z.to_nat ((z - 1000) / 100))
                   ltac:(apply in_seq; lia)).
  rewrite forallb_forall in Hall.
  specialize (Hall (Z.to_nat ((z - 1000) mod 100))
                   ltac:(apply in_seq; lia)).
  cbv zeta in Hall. rewrite !Z2Nat.id in Hall by lia.
  replace (1000 + 100 * ((z - 1000) / 100) + (z - 1000) mod 100)%Z
    with z in Hall by lia.
  now apply String.eqb_eq.
Qed.

Section Attributes.

Variable sizeof_fmt : Z -> string.
Variable isfile : string -> bool.
Variable module_dir : string.
Variable self : ZipRenderer.

Local Notation "'update'" :=
  (update_node_with_attributes sizeof_fmt isfile module_dir self).
Local Notation "'icon_of'" := (icon_path_of isfile module_dir self).
Local Notation "'has_icon'" := (icon_exists isfile module_dir).

(** C6, amended.  The icon attached to a node is the folder icon when the
    entry is a folder; otherwise the extension is taken from the last
    segment of the path as the text after its last '.', lower-cased,
    provided some character other than '.' stands before that '.' in the
    segment, and is empty when there is no such '.'; the icon is the one
    of that extension when [icon_exists] holds of it, the generic file
    icon otherwise; and [icon_exists] does not tell apart extensions that
    differ in case only. *)
Theorem icon_by_kind_and_extension (obj : ZipInfo) :
  (forall n is_folder,
      icon (update n obj is_folder) = Some (icon_of obj is_folder))
  /\ icon_of obj true = assets_url self ++ "/img/folder.png"
  /\ (forall c,
        Str.last_char (filename obj) = Ok c -> c <> "/"%char ->
        icon_of obj false
        = let e := Str.lower (extension_of (last_segment (filename obj))) in
          if has_icon e
          then assets_url self ++ "/img/file-ext-" ++ e ++ ".png"
          else assets_url self ++ "/img/file-ext-generic.png")
  /\ (forall e1 e2, Str.lower e1 = Str.lower e2 -> has_icon e1 = has_icon e2)
  /\ (forall e, has_icon (Str.lower e) = has_icon e).
Proof.
  split; [reflexivity|]. split; [reflexivity|]. split; [|split].
  - intros c Hc Hne. unfold icon_path_of.
    rewrite SplitextFacts.extension_of_basename.
    now rewrite (PathFacts.last_segment_of_file _ _ Hc Hne).
  - intros e1 e2 He. unfold icon_exists. now rewrite He.
  - intros e. unfold icon_exists. now rewrite lower_twice.
Qed.

(** C8.  The data attached to a node hold the date of the entry as
    "YYYY-MM-DD HH:MM:SS", every field padded with zeros to its width
    (four digits for a year from 1000 to 9999, two for the other fields
    from 0 to 99: the range of what a zip archive stores), and as size the
    empty text when the size of the entry is 0 and what [sizeof_fmt] gives
    for it otherwise. *)
Theorem attached_date_and_size
        (n : node) (obj : ZipInfo) (is_folder : bool) :
  (1000 <= year (date_time obj) <= 9999)%Z ->
  (0 <= month (date_time obj) <= 99)%Z ->
  (0 <= day (date_time obj) <= 99)%Z ->
  (0 <= hour (date_time obj) <= 99)%Z ->
  (0 <= minute (date_time obj) <= 99)%Z ->
  (0 <= second (date_time obj) <= 99)%Z ->
  exists date_text size_text,
    data (update n obj is_folder)
    = Some {| date := date_text; size := size_text |}
    /\ date_text
       = four_digits (year (date_time obj)) ++ "-"
         ++ two_digits (month (date_time obj)) ++ "-"
         ++ two_digits (day (date_time obj)) ++ " "
         ++ two_digits (hour (date_time obj)) ++ ":"
         ++ two_digits (minute (date_time obj)) ++ ":"
         ++ two_digits (second (date_time obj))
    /\ String.length date_text = 19
    /\ (file_size obj = 0%Z -> size_text = "")
    /\ (file_size obj <> 0%Z -> size_text = sizeof_fmt (file_size obj)).
Proof.
  intros Hy Hmo Hd Hh Hmi Hs.
  exists (format_date (date_time obj)),
         (format_size sizeof_fmt (file_size obj)).
  split; [reflexivity|].
  assert (Hdate : format_date (date_time obj)
                  = four_digits (year (date_time obj)) ++ "-"
                    ++ two_digits (month (date_time obj)) ++ "-"
                    ++ two_digits (day (date_time obj)) ++ " "
                    ++ two_digits (hour (date_time obj)) ++ ":"
                    ++ two_digits (minute (date_time obj)) ++ ":"
                    ++ two_digits (second (date_time obj))).
  { unfold format_date.
    now rewrite (fmt_d_four_digits _ Hy), (fmt_02d_two_digits _ Hmo),
      (fmt_02d_two_digits _ Hd), (fmt_02d_two_digits _ Hh),
      (fmt_02d_two_digits _ Hmi), (fmt_02d_two_digits _ Hs). }
  split; [exact Hdate|]. split; [rewrite Hdate; reflexivity|].
  unfold format_size. split.
  - intros ->. reflexivity.
  - intros Hne. apply Z.eqb_neq in Hne. now rewrite Hne.
Qed.

End Attributes.

(** * The claims on concrete archives *)

Lemma sample_tree_of_a_b :
  sample_tree [sample_entry "a/b"] = Ok [sample_tree_a_b].
Proof. reflexivity. Qed.

(** C2, as stated, fails: whether the build fails on an entry whose path
    ends on a node of the tree is not told by what that node is.  On the
    tree of the entry "a/b" the entries "a/" and "a" both end on the node
    "a": the first goes through and the second fails, so no sorting of
    nodes into folders and others makes the build fail exactly on the
    others. *)
Lemma node_kind_does_not_decide :
  ~ exists kind : node -> bool,
      forall (obj_list : list ZipInfo) (tree_root n : node)
             (obj : ZipInfo) (c : ascii),
        sample_tree obj_list = Ok [tree_root] ->
        Str.last_char (filename obj) = Ok c ->
        lookup (path_segments_of (filename obj)) (children tree_root)
        = Some n ->
        (kind n = false -> exists e, sample_add tree_root obj = Err e)
        /\ (kind n = true ->
            exists root', sample_add tree_root obj = Ok root').
Proof.
  intros [kind H].
  pose proof (H [sample_entry "a/b"] sample_tree_a_b sample_node_a
                (sample_entry "a/") "/"%char eq_refl eq_refl eq_refl)
    as [Hfolder _].
  pose proof (H [sample_entry "a/b"] sample_tree_a_b sample_node_a
                (sample_entry "a") "a"%char eq_refl eq_refl eq_refl)
    as [_ Hfile].
  destruct (kind sample_node_a).
  - destruct (Hfile eq_refl) as [root' Hr]. vm_compute in Hr. discriminate.
  - destruct (Hfolder eq_refl) as [e He]. vm_compute in He. discriminate.
Qed.

Lemma entry_on_node_witness :
  Str.last_char (filename (sample_entry "a")) = Ok "a"%char
  /\ lookup (path_segments_of (filename (sample_entry "a")))
            (children sample_tree_a_b) = Some sample_node_a
  /\ sample_add sample_tree_a_b (sample_entry "a") = Err AssertionError.
Proof.
  split; [reflexivity|]. split; [reflexivity|].
  refine (proj1 (entry_on_node_asserts_entry_is_folder
                   sample_sizeof_fmt sample_isfile sample_dir
                   sample_renderer sample_tree_a_b sample_node_a
                   (sample_entry "a") "a"%char eq_refl eq_refl) _).
  discriminate.
Defined.

(** C6, as stated, fails on a file whose name starts with its only '.':
    for ".gitignore" the text after the last '.' is "gitignore", for
    which there is an icon, and the renderer attaches the generic icon. *)
Lemma leading_dot_is_no_extension :
  let obj := sample_entry ".gitignore" in
  let e := Str.lower (text_after_last_dot (last_segment (filename obj))) in
  e = "gitignore"
  /\ icon_exists sample_isfile sample_dir e = true
  /\ icon_path_of sample_isfile sample_dir sample_renderer obj false
     = "/assets/img/file-ext-generic.png"
  /\ icon_path_of sample_isfile sample_dir sample_renderer obj false
     <> (if icon_exists sample_isfile sample_dir e
         then assets_url sample_renderer ++ "/img/file-ext-" ++ e ++ ".png"
         else assets_url sample_renderer ++ "/img/file-ext-generic.png").
Proof.
  cbv zeta. split; [reflexivity|]. split; [reflexivity|].
  split; [reflexivity|]. vm_compute. discriminate.
Qed.

Lemma icon_by_kind_and_extension_witness :
  Str.last_char (filename (sample_entry "docs/Notes.TXT")) = Ok "T"%char
  /\ icon_path_of sample_isfile sample_dir sample_renderer
                  (sample_entry "docs/Notes.TXT") false
     = "/assets/img/file-ext-txt.png".
Proof.
  split; [reflexivity|].
  refine (eq_trans
            (proj1 (proj2 (proj2 (icon_by_kind_and_extension
                                    sample_sizeof_fmt sample_isfile
                                    sample_dir sample_renderer
                                    (sample_entry "docs/Notes.TXT"))))
                   "T"%char eq_refl _) _);
    [discriminate | reflexivity].
Defined.

(** C7, as stated, fails: on the entries "a/b", "a" the build raises the
    assertion error and returns no root. *)
Lemma file_entry_on_folder_fails :
  sample_tree [sample_entry "a/b"; sample_entry "a"] = Err AssertionError
  /\ ~ exists root,
        sample_tree [sample_entry "a/b"; sample_entry "a"] = Ok [root].
Proof.
  split; [reflexivity|]. intros [root H]. vm_compute in H. discriminate.
Qed.

Lemma one_root_witness :
  Forall (fun obj => filename obj <> "")
         [sample_entry "a/b"; sample_entry "a/"]
  /\ accepts [] [sample_entry "a/b"; sample_entry "a/"] = true
  /\ exists cs,
      sample_tree [sample_entry "a/b"; sample_entry "a/"]
      = Ok [sample_root cs].
Proof.
  assert (Hall : Forall (fun obj => filename obj <> "")
                        [sample_entry "a/b"; sample_entry "a/"])
    by (repeat constructor; discriminate).
  split; [exact Hall|]. split; [reflexivity|].
  exact (proj1 (proj1 (one_root_on_accepted_lists
                         sample_sizeof_fmt sample_isfile sample_dir
                         sample_renderer
                         [sample_entry "a/b"; sample_entry "a/"] Hall))
               eq_refl).
Defined.

Lemma attached_date_and_size_witness :
  let obj := sample_entry "a.txt" in
  (1000 <= year (date_time obj) <= 9999)%Z
  /\ (0 <= month (date_time obj) <= 99)%Z
  /\ (0 <= day (date_time obj) <= 99)%Z
  /\ (0 <= hour (date_time obj) <= 99)%Z
  /\ (0 <= minute (date_time obj) <= 99)%Z
  /\ (0 <= second (date_time obj) <= 99)%Z
  /\ exists date_text size_text,
      data (update_node_with_attributes sample_sizeof_fmt sample_isfile
              sample_dir sample_renderer sample_file_a obj false)
      = Some {| date := date_text; size := size_text |}
      /\ date_text = "2020-01-02 03:04:05"
      /\ String.length date_text = 19
      /\ (file_size obj = 0%Z -> size_text = "")
      /\ (file_size obj <> 0%Z
          -> size_text = sample_sizeof_fmt (file_size obj)).
Proof.
  cbv zeta.
  assert (Hy : (1000 <= 2020 <= 9999)%Z) by (split; discriminate).
  assert (H1 : (0 <= 1 <= 99)%Z) by (split; discriminate).
  assert (H2 : (0 <= 2 <= 99)%Z) by (split; discriminate).
  assert (H3 : (0 <= 3 <= 99)%Z) by (split; discriminate).
  assert (H4 : (0 <= 4 <= 99)%Z) by (split; discriminate).
  assert (H5 : (0 <= 5 <= 99)%Z) by (split; discriminate).
  repeat (split; [assumption|]).
  exact (attached_date_and_size sample_sizeof_fmt sample_isfile sample_dir
           sample_renderer sample_file_a (sample_entry "a.txt") false
           Hy H1 H2 H3 H4 H5).
Defined.

(** C9, as stated, fails: in the tree of the entry "x/y/z.txt" the node
    "x", which is not the root, carries no data. *)
Lemma implicit_folder_has_no_data :
  sample_tree [sample_entry "x/y/z.txt"] = Ok [sample_root [sample_node_x]]
  /\ In sample_node_x (children (sample_root [sample_node_x]))
  /\ data sample_node_x = None.
Proof. split; [reflexivity|]. split; [now left | reflexivity]. Qed.

Lemma data_on_entry_nodes_witness :
  sample_tree [sample_entry "x/y/z.txt"] = Ok [sample_root [sample_node_x]]
  /\ data (sample_root [sample_node_x]) = None
  /\ icon (sample_root [sample_node_x])
     = Some "/assets/img/file-ext-zip.png"
  /\ forall q, q <> [] ->
       (data_at q [sample_node_x] <> None
        <-> exists obj,
            In obj [sample_entry "x/y/z.txt"]
            /\ path_segments_of (filename obj) = q).
Proof.
  split; [reflexivity|].
  exact (data_on_entry_nodes_only sample_sizeof_fmt sample_isfile sample_dir
           sample_renderer [sample_entry "x/y/z.txt"]
           (sample_root [sample_node_x]) eq_refl).
Defined.

Lemma folder_entry_overwrites_witness :
  add_objs sample_sizeof_fmt sample_isfile sample_dir sample_renderer
           (initial_root sample_renderer) [sample_entry "a"]
  = Ok (sample_root [sample_file_a])
  /\ In (sample_entry "a") [sample_entry "a"]
  /\ Str.last_char (filename (sample_entry "a")) = Ok "a"%char
  /\ "a"%char <> "/"%char
  /\ Str.last_char (filename (sample_entry "a/")) = Ok "/"%char
  /\ path_segments_of (filename (sample_entry "a/"))
     = path_segments_of (filename (sample_entry "a"))
  /\ exists n root',
      lookup ["a"] [sample_file_a] = Some n
      /\ sample_tree [sample_entry "a"; sample_entry "a/"] = Ok [root']
      /\ lookup ["a"] (children root')
         = Some {| text := text n;
                   icon := Some "/assets/img/folder.png";
                   children := children n;
                   data := sample_data |}
      /\ node_count root' = 2.
Proof.
  assert (Hne : "a"%char <> "/"%char) by discriminate.
  split; [reflexivity|]. split; [left; reflexivity|].
  split; [reflexivity|]. split; [exact Hne|]. split; [reflexivity|].
  split; [reflexivity|].
  exact (folder_entry_overwrites_file_node sample_sizeof_fmt sample_isfile
           sample_dir sample_renderer [sample_entry "a"] (sample_entry "a")
           (sample_entry "a/") "a"%char (sample_root [sample_file_a])
           eq_refl (or_introl eq_refl) eq_refl Hne eq_refl eq_refl).
Defined.

(** * More on the sanitizer and on [render] *)

Lemma filter_twice (A : Type) (f : A -> bool) (l : list A) :
  filter f (filter f l) = filter f l.
Proof.
  induction l as [|a l IH]; [reflexivity|]. cbn.
  destruct (f a) eqn:E; cbn; [rewrite E|]; now rewrite ?IH.
Qed.

Lemma sanitize_as_filter (obj_list : list ZipInfo) :
  sanitize_obj_list obj_list
  = filter (fun obj => negb (is_junk (filename obj))) obj_list.
Proof. unfold sanitize_obj_list. now rewrite sanitize_loop_filter. Qed.

(** X1.  Sanitizing twice is sanitizing once. *)
Theorem sanitize_idempotent (obj_list : list ZipInfo) :
  sanitize_obj_list (sanitize_obj_list obj_list)
  = sanitize_obj_list obj_list.
Proof. rewrite !sanitize_as_filter. apply filter_twice. Qed.

(** X2.  The sanitizer works entry by entry: the sanitized concatenation of
    two lists is the concatenation of the sanitized lists, and the output
    is never longer than the input. *)
Theorem sanitize_app (l1 l2 : list ZipInfo) :
  sanitize_obj_list (l1 ++ l2)
  = (sanitize_obj_list l1 ++ sanitize_obj_list l2)%list
  /\ List.length (sanitize_obj_list l1) <= List.length l1.
Proof.
  rewrite !sanitize_as_filter. split; [apply filter_app|].
  apply filter_length_le.
Qed.

(** X3.  [render] does not see the junk entries: a junk entry put anywhere
    in the entry list of the archive changes neither the outcome nor the
    text rendered, even where that entry alone would make the tree builder
    fail. *)
Theorem render_ignores_junk
        (template_render : list node -> string -> string)
        (sizeof_fmt : Z -> string) (isfile : string -> bool)
        (module_dir : string) (self : ZipRenderer)
        (before after : list ZipInfo) (obj : ZipInfo) :
  junk_path (filename obj) ->
  render template_render sizeof_fmt isfile module_dir self
         (before ++ obj :: after)
  = render template_render sizeof_fmt isfile module_dir self
           (before ++ after).
Proof.
  intros Hj. apply is_junk_iff in Hj. unfold render.
  rewrite !sanitize_as_filter, !filter_app. cbn [filter].
  now rewrite Hj.
Qed.

Lemma render_ignores_junk_witness :
  junk_path (filename (sample_entry "a/.DS_Store"))
  /\ render sample_template sample_sizeof_fmt sample_isfile sample_dir
            sample_renderer
            [sample_entry "a/b"; sample_entry "a/.DS_Store";
             sample_entry "c"]
     = render sample_template sample_sizeof_fmt sample_isfile sample_dir
              sample_renderer [sample_entry "a/b"; sample_entry "c"].
Proof.
  assert (Hj : junk_path (filename (sample_entry "a/.DS_Store")))
    by (right; right; exists "a"; reflexivity).
  split; [exact Hj|].
  exact (render_ignores_junk sample_template sample_sizeof_fmt
           sample_isfile sample_dir sample_renderer
           [sample_entry "a/b"] [sample_entry "c"]
           (sample_entry "a/.DS_Store") Hj).
Defined.

(** * More on the tree: order, paths and attributes *)

Lemma existsb_eqb_in (s : string) (l : list string) :
  existsb (String.eqb s) l = true <-> In s l.
Proof.
  rewrite existsb_exists. split.
  - intros (x & Hx & He). apply String.eqb_eq in He. now subst.
  - intros H. exists s. split; [exact H | apply String.eqb_refl].
Qed.

(** Writing a node back keeps the labels in place, or adds its label at
    the end when it is new. *)
Lemma map_text_put (n : node) (siblings : list node) :
  map text (put n siblings) = add_if_new (map text siblings) (text n).
Proof.
  unfold put, add_if_new.
  destruct (find_node_among_siblings (text n) siblings) as [m|] eqn:E.
  - rewrite map_text_store.
    assert (H : existsb (String.eqb (text n)) (map text siblings) = true).
    { apply existsb_eqb_in, in_map_iff. exists m.
      split; [eapply find_text, E | eapply find_in, E]. }
    now rewrite H.
  - assert (H : existsb (String.eqb (text n)) (map text siblings) = false).
    { apply not_true_is_false. intros H. apply existsb_eqb_in in H.
      now apply find_none in E. }
    rewrite H, map_app. reflexivity.
Qed.

Lemma insert_labels (attach : node -> node) (is_folder : bool)
      (seg : string) (rest : list string) (siblings cs' : list node) :
  (forall n, text (attach n) = text n) ->
  insert attach is_folder (seg :: rest) siblings = Ok cs' ->
  map text cs' = add_if_new (map text siblings) seg.
Proof.
  intros Ht H. destruct rest as [|t r].
  - apply insert_last in H. subst cs'.
    now rewrite map_text_put, Ht, found_or_new_text.
  - rewrite insert_step in H.
    destruct (insert attach is_folder (t :: r)
                (children (found_or_new seg siblings))) as [cs|e];
      cbn in H; [|discriminate].
    injection H as <-. rewrite map_text_put. cbn [text set_children].
    now rewrite found_or_new_text.
Qed.

Lemma lookup_text (q : list string) :
  forall (siblings : list node) (n : node),
    lookup q siblings = Some n -> text n = last q "".
Proof.
  induction q as [|s q IH]; intros siblings n H; [discriminate|].
  destruct q as [|t q'].
  - rewrite lookup_one in H. cbn. eapply find_text, H.
  - rewrite lookup_cons in H. apply IH in H. exact H.
Qed.

Section TreeExtras.

Variable sizeof_fmt : Z -> string.
Variable isfile : string -> bool.
Variable module_dir : string.
Variable self : ZipRenderer.

Local Notation "'update'" :=
  (update_node_with_attributes sizeof_fmt isfile module_dir self).
Local Notation "'add'" := (add_obj sizeof_fmt isfile module_dir self).
Local Notation "'adds'" := (add_objs sizeof_fmt isfile module_dir self).
Local Notation "'build'" :=
  (obj_list_to_tree sizeof_fmt isfile module_dir self).
Local Notation "'segs_of' obj" := (path_segments_of (filename obj))
  (at level 10, obj at level 9).
Local Notation "'data_of' obj" :=
  {| date := format_date (date_time obj);
     size := format_size sizeof_fmt (file_size obj) |}
  (at level 10, obj at level 9).
Local Notation "'icon_of' obj" :=
  (icon_path_of isfile module_dir self obj
                (Str.endswith (filename obj) "/"))
  (at level 10, obj at level 9).

Lemma add_obj_labels (tree_root root' : node) (obj : ZipInfo) :
  add tree_root obj = Ok root' ->
  map text (children root')
  = fold_left add_if_new
              (match segs_of obj with [] => [] | s :: _ => [s] end)
              (map text (children tree_root)).
Proof.
  intros H. apply add_obj_ok in H. destruct H as (c & cs & _ & Hi & ->).
  cbn [children set_children].
  destruct (segs_of obj) as [|seg rest]; cbn [fold_left].
  - cbn in Hi. congruence.
  - eapply insert_labels; [|exact Hi]. reflexivity.
Qed.

Lemma add_objs_labels (obj_list : list ZipInfo) :
  forall tree_root root',
    adds tree_root obj_list = Ok root' ->
    map text (children root')
    = fold_left add_if_new (first_segments obj_list)
                (map text (children tree_root)).
Proof.
  induction obj_list as [|obj rest IH]; intros tree_root root' H; cbn in H.
  - now injection H as <-.
  - destruct (add tree_root obj) as [r1|] eqn:E; cbn in H; [|discriminate].
    unfold first_segments. cbn [flat_map]. rewrite fold_left_app.
    rewrite (IH _ _ H), (add_obj_labels _ _ _ E). reflexivity.
Qed.

(** X4.  The children of the root stand in the order in which their
    labels first appear as the first segment of an entry, one child for
    each such label: the order of discovery, not an alphabetical one. *)
Theorem root_children_in_discovery_order
        (obj_list : list ZipInfo) (root : node) :
  build obj_list = Ok [root] ->
  map text (children root) = first_seen (first_segments obj_list).
Proof.
  intros H. apply build_ok in H. destruct H as (r & H & [= <-]).
  now rewrite (add_objs_labels _ _ _ H).
Qed.

(** X5.  The nodes of the tree are the non-empty initial parts of the
    segment lists of the entries: a path leads to a node exactly when it
    is an initial part of the segments of some entry, and the node it
    leads to is labelled with the last segment of the path. *)
Theorem tree_paths_are_entry_prefixes
        (obj_list : list ZipInfo) (root : node) :
  build obj_list = Ok [root] ->
  forall q, q <> [] ->
    (present q (children root) = true
     <-> exists obj, In obj obj_list /\ prefixb q (segs_of obj) = true)
    /\ (forall n, lookup q (children root) = Some n -> text n = last q "").
Proof.
  intros H q Hq. apply build_ok in H. destruct H as (r & H & [= <-]).
  split; [|intros n Hn; eapply lookup_text, Hn].
  rewrite (add_objs_present _ _ _ _ _ _ _ H q Hq).
  cbn [children initial_root]. unfold present at 1.
  rewrite lookup_nil_siblings, orb_false_l, existsb_exists. reflexivity.
Qed.

Lemma add_obj_icon (tree_root root' : node) (obj : ZipInfo) :
  add tree_root obj = Ok root' ->
  forall q, q <> [] ->
    icon_at q (children root')
    = if list_eq_dec string_dec q (segs_of obj) then Some (icon_of obj)
      else icon_at q (children tree_root).
Proof.
  intros H q Hq. apply add_obj_ok in H. destruct H as (c & cs & Hc & Hi & ->).
  cbn [children set_children]. rewrite (PathFacts.endswith_slash _ _ Hc).
  exact (insert_obs_at (fun n => update n obj (Ascii.eqb c "/"))
           (Ascii.eqb c "/") (fun _ => eq_refl) (fun _ => eq_refl)
           string icon
           (icon_path_of isfile module_dir self obj (Ascii.eqb c "/"))
           (fun _ => eq_refl) (fun _ _ => eq_refl) (fun _ => eq_refl)
           _ _ _ Hi q Hq).
Qed.

(** X6.  Adding an entry touches the attributes of one node only, the one
    its path ends on: every other node keeps its icon and its data, and
    no path of the tree is lost. *)
Theorem add_obj_touches_one_node
        (tree_root root' : node) (obj : ZipInfo) (q : list string) :
  add tree_root obj = Ok root' ->
  q <> [] -> q <> segs_of obj ->
  data_at q (children root') = data_at q (children tree_root)
  /\ icon_at q (children root') = icon_at q (children tree_root)
  /\ (present q (children tree_root) = true ->
      present q (children root') = true).
Proof.
  intros H Hq Hne.
  rewrite (add_obj_data _ _ _ _ _ _ _ H q Hq), (add_obj_icon _ _ _ H q Hq),
    (add_obj_present _ _ _ _ _ _ _ H q Hq).
  destruct (list_eq_dec string_dec q (segs_of obj)); [congruence|].
  split; [reflexivity|]. split; [reflexivity|]. intros ->. reflexivity.
Qed.

Lemma add_objs_keep (obj_list : list ZipInfo) (q : list string) :
  q <> [] ->
  Forall (fun o => segs_of o <> q) obj_list ->
  forall tree_root root',
    adds tree_root obj_list = Ok root' ->
    data_at q (children root') = data_at q (children tree_root)
    /\ icon_at q (children root') = icon_at q (children tree_root).
Proof.
  intros Hq. induction 1 as [|obj rest Hne Hrest IH];
    intros tree_root root' H; cbn in H.
  - injection H as <-. auto.
  - destruct (add tree_root obj) as [r1|] eqn:E; cbn in H; [|discriminate].
    destruct (IH _ _ H) as [Hd Hi].
    rewrite Hd, Hi, (add_obj_data _ _ _ _ _ _ _ E q Hq),
      (add_obj_icon _ _ _ E q Hq).
    destruct (list_eq_dec string_dec q (segs_of obj)); [congruence|].
    split; reflexivity.
Qed.

(** X7.  The last entry with given segments decides what the node shows:
    when no later entry has the same segments, the node at the end of the
    path of an entry carries the date and size of that entry, and the icon
    computed from that entry. *)
Theorem last_entry_decides_attributes
        (before after : list ZipInfo) (obj : ZipInfo) (root : node) :
  build (before ++ obj :: after) = Ok [root] ->
  segs_of obj <> [] ->
  Forall (fun o => segs_of o <> segs_of obj) after ->
  data_at (segs_of obj) (children root) = Some (data_of obj)
  /\ icon_at (segs_of obj) (children root) = Some (icon_of obj).
Proof.
  intros H Hs Hafter. apply build_ok in H. destruct H as (r & H & [= <-]).
  rewrite add_objs_app in H.
  destruct (adds (initial_root self) before) as [r0|]; cbn [bind] in H;
    [|discriminate].
  cbn [add_objs] in H.
  destruct (add r0 obj) as [r1|] eqn:E; cbn [bind] in H; [|discriminate].
  destruct (add_objs_keep after (segs_of obj) Hs Hafter _ _ H) as [Hd Hi].
  rewrite Hd, Hi, (add_obj_data _ _ _ _ _ _ _ E _ Hs),
    (add_obj_icon _ _ _ E _ Hs).
  destruct (list_eq_dec string_dec (segs_of obj) (segs_of obj));
    [auto | congruence].
Qed.

End TreeExtras.

Lemma root_children_order_witness :
  exists root,
    sample_tree [sample_entry "b/x"; sample_entry "a"; sample_entry "b/y"]
    = Ok [root]
    /\ map text (children root) = ["b"; "a"].
Proof.
  eexists. split; [reflexivity|].
  exact (root_children_in_discovery_order sample_sizeof_fmt sample_isfile
           sample_dir sample_renderer
           [sample_entry "b/x"; sample_entry "a"; sample_entry "b/y"]
           _ eq_refl).
Defined.

Lemma tree_paths_witness :
  sample_tree [sample_entry "x/y/z.txt"] = Ok [sample_root [sample_node_x]]
  /\ ["x"; "y"] <> []
  /\ (present ["x"; "y"] [sample_node_x] = true
      <-> exists obj,
          In obj [sample_entry "x/y/z.txt"]
          /\ prefixb ["x"; "y"] (path_segments_of (filename obj)) = true)
  /\ (forall n, lookup ["x"; "y"] [sample_node_x] = Some n ->
                text n = "y").
Proof.
  assert (Hq : ["x"; "y"] <> []) by discriminate.
  split; [reflexivity|]. split; [exact Hq|].
  exact (tree_paths_are_entry_prefixes sample_sizeof_fmt sample_isfile
           sample_dir sample_renderer [sample_entry "x/y/z.txt"]
           (sample_root [sample_node_x]) eq_refl ["x"; "y"] Hq).
Defined.

Lemma add_obj_touches_one_node_witness :
  exists root',
    sample_add sample_tree_a_b (sample_entry "c") = Ok root'
    /\ ["a"; "b"] <> []
    /\ ["a"; "b"] <> path_segments_of (filename (sample_entry "c"))
    /\ data_at ["a"; "b"] (children root') = sample_data
    /\ icon_at ["a"; "b"] (children root')
       = Some "/assets/img/file-ext-generic.png"
    /\ (present ["a"; "b"] (children sample_tree_a_b) = true ->
        present ["a"; "b"] (children root') = true).
Proof.
  assert (Hq : ["a"; "b"] <> []) by discriminate.
  assert (Hne : ["a"; "b"] <> path_segments_of (filename (sample_entry "c")))
    by discriminate.
  eexists. split; [reflexivity|]. split; [exact Hq|]. split; [exact Hne|].
  exact (add_obj_touches_one_node sample_sizeof_fmt sample_isfile sample_dir
           sample_renderer sample_tree_a_b _ (sample_entry "c") ["a"; "b"]
           eq_refl Hq Hne).
Defined.

Lemma last_entry_decides_witness :
  let late := {| filename := "a/";
                 date_time := DateTime 2021 12 31 23 59 58;
                 file_size := 7 |} in
  exists root,
    sample_tree [sample_entry "a/"; late; sample_entry "b"] = Ok [root]
    /\ path_segments_of (filename late) <> []
    /\ Forall (fun o => path_segments_of (filename o)
                        <> path_segments_of (filename late))
              [sample_entry "b"]
    /\ data_at ["a"] (children root)
       = Some {| date := "2021-12-31 23:59:58"; size := "7B" |}
    /\ icon_at ["a"] (children root) = Some "/assets/img/folder.png".
Proof.
  cbv zeta.
  set (late := {| filename := "a/";
                  date_time := DateTime 2021 12 31 23 59 58;
                  file_size := 7 |}).
  assert (Hs : path_segments_of (filename late) <> []) by discriminate.
  assert (Ha : Forall (fun o => path_segments_of (filename o)
                                <> path_segments_of (filename late))
                      [sample_entry "b"])
    by (repeat constructor; discriminate).
  eexists. split; [reflexivity|]. split; [exact Hs|]. split; [exact Ha|].
  exact (last_entry_decides_attributes sample_sizeof_fmt sample_isfile
           sample_dir sample_renderer [sample_entry "a/"]
           [sample_entry "b"] late _ eq_refl Hs Ha).
Defined.

(** * More on paths and segments *)

Lemma split_no_sep (sep : ascii) (s : string) :
  Forall (fun piece => occurs sep piece = false) (Str.split sep s).
Proof.
  induction s as [|a s IH]; cbn; [repeat constructor|].
  destruct (Ascii.eqb a sep) eqn:E; [now constructor|].
  destruct (Str.split sep s) as [|seg rest].
  - repeat constructor. cbn. now rewrite E.
  - inversion IH as [|? ? Hseg Hrest]; subst.
    constructor; [cbn; now rewrite E, Hseg | exact Hrest].
Qed.

Lemma segments_clean (path : string) :
  Forall (fun seg => seg <> "" /\ occurs "/" seg = false)
         (path_segments_of path).
Proof.
  unfold path_segments_of. apply Forall_forall. intros seg Hin.
  apply filter_In in Hin. destruct Hin as [Hin Hne].
  pose proof (split_no_sep "/" path) as Hall.
  rewrite Forall_forall in Hall. split; [|now apply Hall].
  intros ->. discriminate.
Qed.

Lemma split_app_sep (sep : ascii) (front back : string) :
  Str.split sep (front ++ String sep back)
  = (Str.split sep front ++ Str.split sep back)%list.
Proof.
  induction front as [|a front IH]; cbn.
  - now rewrite Ascii.eqb_refl.
  - rewrite IH. destruct (Ascii.eqb a sep); [reflexivity|].
    pose proof (PathFacts.split_nonempty sep front) as Hne.
    destruct (Str.split sep front); [congruence | reflexivity].
Qed.

(** X8.  Cutting a path at a '/' cuts its segments: the segments of
    [front ++ "/" ++ back] are those of [front] followed by those of
    [back]; so a '/' at the start or at the end of a path, or doubled
    inside it, changes nothing, and two such paths land on one node. *)
Theorem segments_of_joined_paths (front back : string) :
  path_segments_of (front ++ "/" ++ back)
  = (path_segments_of front ++ path_segments_of back)%list
  /\ path_segments_of ("/" ++ back) = path_segments_of back
  /\ path_segments_of (front ++ "/") = path_segments_of front
  /\ path_segments_of (front ++ "//" ++ back)
     = path_segments_of (front ++ "/" ++ back).
Proof.
  assert (H : forall f b,
             path_segments_of (f ++ "/" ++ b)
             = (path_segments_of f ++ path_segments_of b)%list).
  { intros f b. unfold path_segments_of.
    change (f ++ "/" ++ b) with (f ++ String "/" b).
    now rewrite split_app_sep, filter_app. }
  split; [apply H|]. split; [reflexivity|]. split.
  - change (front ++ "/") with (front ++ "/" ++ "").
    rewrite H. apply app_nil_r.
  - change (front ++ "//" ++ back) with (front ++ "/" ++ "/" ++ back).
    rewrite !H. reflexivity.
Qed.

Lemma no_segments_iff (path : string) :
  path_segments_of path = [] <-> only_slashes path = true.
Proof.
  unfold path_segments_of. induction path as [|a path IH]; cbn.
  - tauto.
  - destruct (Ascii.eqb a "/"); cbn.
    + exact IH.
    + split; [|discriminate].
      pose proof (PathFacts.split_nonempty "/" path) as Hne.
      destruct (Str.split "/" path); [congruence | cbn; discriminate].
Qed.

Lemma prefixb_in (q segs : list string) :
  prefixb q segs = true -> forall s, In s q -> In s segs.
Proof.
  revert segs. induction q as [|a q IH]; intros segs H s Hin;
    [contradiction|].
  destruct segs as [|b segs]; [discriminate|]. cbn in H.
  apply andb_true_iff in H. destruct H as [Hab Hq].
  apply String.eqb_eq in Hab. subst b.
  destruct Hin as [<-|Hin]; [now left | right; eauto].
Qed.

Lemma last_in (q : list string) : q <> [] -> In (last q "") q.
Proof.
  intros Hq. rewrite (app_removelast_last "" Hq) at 2.
  apply in_or_app. right. now left.
Qed.

Section SegmentExtras.

Variable sizeof_fmt : Z -> string.
Variable isfile : string -> bool.
Variable module_dir : string.
Variable self : ZipRenderer.

Local Notation "'build'" :=
  (obj_list_to_tree sizeof_fmt isfile module_dir self).

(** X9.  An entry whose path is made of '/' characters only ("/", "//",
    ...) is skipped: the outcome of the build is the one of the list
    without that entry.  These are the only paths without segments. *)
Theorem slash_only_entry_skipped
        (before after : list ZipInfo) (obj : ZipInfo) :
  filename obj <> "" ->
  only_slashes (filename obj) = true ->
  build (before ++ obj :: after) = build (before ++ after).
Proof.
  intros Hne Hs. apply no_segments_skipped; [exact Hne|].
  now apply no_segments_iff.
Qed.

(** X10.  Every node below the root of a returned tree has a label that
    is not empty and holds no '/'. *)
Theorem labels_are_clean_segments
        (obj_list : list ZipInfo) (root : node)
        (q : list string) (n : node) :
  build obj_list = Ok [root] ->
  lookup q (children root) = Some n ->
  text n <> "" /\ occurs "/" (text n) = false.
Proof.
  intros H Hn.
  assert (Hq : q <> []) by (intros ->; discriminate).
  assert (Hp : present q (children root) = true)
    by (unfold present; now rewrite Hn).
  apply build_ok in H. destruct H as (r & H & [= <-]).
  rewrite (add_objs_present _ _ _ _ _ _ _ H q Hq) in Hp.
  cbn [children initial_root] in Hp. unfold present in Hp at 1.
  rewrite lookup_nil_siblings, orb_false_l in Hp.
  apply existsb_exists in Hp. destruct Hp as (obj & _ & Hpre).
  rewrite (lookup_text _ _ _ Hn).
  pose proof (segments_clean (filename obj)) as Hclean.
  rewrite Forall_forall in Hclean. apply Hclean.
  eapply prefixb_in; [exact Hpre | now apply last_in].
Qed.

End SegmentExtras.

Lemma slash_only_entry_witness :
  filename (sample_entry "//") <> ""
  /\ only_slashes (filename (sample_entry "//")) = true
  /\ sample_tree [sample_entry "a"; sample_entry "//"; sample_entry "b"]
     = sample_tree [sample_entry "a"; sample_entry "b"].
Proof.
  assert (Hne : filename (sample_entry "//") <> "") by discriminate.
  split; [exact Hne|]. split; [reflexivity|].
  exact (slash_only_entry_skipped sample_sizeof_fmt sample_isfile sample_dir
           sample_renderer [sample_entry "a"] [sample_entry "b"]
           (sample_entry "//") Hne eq_refl).
Defined.

Lemma labels_are_clean_witness :
  exists n,
    sample_tree [sample_entry "x//y/z.txt"]
    = Ok [sample_root [sample_node_x]]
    /\ lookup ["x"; "y"] (children (sample_root [sample_node_x])) = Some n
    /\ text n <> "" /\ occurs "/" (text n) = false.
Proof.
  eexists. split; [reflexivity|]. split; [reflexivity|].
  exact (labels_are_clean_segments sample_sizeof_fmt sample_isfile
           sample_dir sample_renderer [sample_entry "x//y/z.txt"]
           (sample_root [sample_node_x]) ["x"; "y"] _ eq_refl eq_refl).
Defined.

(** * More on searching, counting and extensions *)

(** X11.  [find_node_among_siblings] returns the first sibling labelled
    with the segment, whatever comes after it, and nothing exactly when
    no sibling has that label. *)
Theorem find_returns_first_match (segment : string) (siblings : list node) :
  match find_node_among_siblings segment siblings with
  | Some n =>
      exists before after,
        siblings = (before ++ n :: after)%list
        /\ text n = segment
        /\ Forall (fun m => text m <> segment) before
  | None => Forall (fun m => text m <> segment) siblings
  end.
Proof.
  induction siblings as [|sibling rest IH]; cbn; [constructor|].
  destruct (String.eqb_spec (text sibling) segment) as [E|E].
  - exists [], rest. repeat split; auto.
  - destruct (find_node_among_siblings segment rest) as [n|].
    + destruct IH as (before & after & -> & Ht & Hb).
      exists (sibling :: before), after. repeat split; auto.
    + now constructor.
Qed.

Lemma count_all_app (l1 l2 : list node) :
  count_all (l1 ++ l2) = count_all l1 + count_all l2.
Proof. unfold count_all. now rewrite map_app, list_sum_app. Qed.

Lemma count_all_store_at (n m : node) (siblings : list node) :
  find_node_among_siblings (text n) siblings = Some m ->
  count_all (store_node (text n) n siblings) + node_count m
  = count_all siblings + node_count n.
Proof.
  unfold count_all.
  induction siblings as [|sibling rest IH]; cbn -[node_count];
    [discriminate|].
  destruct (text sibling =? text n); cbn -[node_count].
  - intros [= ->]. unfold list_sum. lia.
  - intros H. specialize (IH H). unfold list_sum in *. lia.
Qed.

Lemma count_all_put (n : node) (siblings : list node) :
  count_all (put n siblings)
  + match find_node_among_siblings (text n) siblings with
    | Some m => node_count m
    | None => 0
    end
  = count_all siblings + node_count n.
Proof.
  unfold put.
  destruct (find_node_among_siblings (text n) siblings) as [m|] eqn:E.
  - now apply count_all_store_at.
  - rewrite count_all_app. unfold count_all at 2. cbn -[node_count].
    unfold list_sum. lia.
Qed.

(** The walk removes no node and adds at most one for each segment. *)
Lemma insert_count_bounds (attach : node -> node) (is_folder : bool)
      (segs : list string) :
  (forall n, text (attach n) = text n) ->
  (forall n, children (attach n) = children n) ->
  forall siblings cs',
    insert attach is_folder segs siblings = Ok cs' ->
    count_all siblings <= count_all cs'
    /\ count_all cs' <= count_all siblings + List.length segs.
Proof.
  intros Ht Hc. induction segs as [|seg rest IH]; intros siblings cs' H.
  - cbn in H. injection H as <-. cbn. lia.
  - assert (Hfind : forall n, text n = seg ->
               find_node_among_siblings (text n) siblings
               = find_node_among_siblings seg siblings)
      by (intros n ->; reflexivity).
    destruct rest as [|t r].
    + apply (insert_last attach is_folder) in H. subst cs'.
      pose proof (count_all_put (attach (found_or_new seg siblings))
                                siblings) as Hp.
      rewrite (Hfind _ (attach_found_text attach Ht seg siblings)) in Hp.
      rewrite !node_count_children, Hc in Hp.
      unfold found_or_new in *. cbn [List.length].
      destruct (find_node_among_siblings seg siblings) as [m|].
      * rewrite (node_count_children m) in Hp. lia.
      * cbn in Hp. lia.
    + rewrite insert_step in H.
      destruct (insert attach is_folder (t :: r)
                  (children (found_or_new seg siblings))) as [cs|e] eqn:E;
        cbn in H; [|discriminate].
      injection H as <-. specialize (IH _ _ E).
      pose proof (count_all_put
                    (set_children (found_or_new seg siblings) cs)
                    siblings) as Hp.
      cbn [text set_children] in Hp.
      rewrite (Hfind _ (found_or_new_text seg siblings)) in Hp.
      rewrite node_count_children in Hp. cbn [children set_children] in Hp.
      unfold found_or_new in *. cbn [List.length] in *.
      destruct (find_node_among_siblings seg siblings) as [m|].
      * rewrite node_count_children in Hp. lia.
      * cbn in IH. lia.
Qed.

Lemma occurs_app (c : ascii) (s t : string) :
  occurs c (s ++ t) = occurs c s || occurs c t.
Proof.
  induction s as [|a s IH]; [reflexivity|]. cbn.
  now rewrite IH, orb_assoc.
Qed.

Lemma occurs_rpartition_none (c : ascii) (s : string) :
  rpartition c s = None -> occurs c s = false.
Proof.
  induction s as [|a s IH]; [reflexivity|]. cbn.
  destruct (rpartition c s) as [[u x]|]; [discriminate|].
  destruct (Ascii.eqb a c); [discriminate|]. intros _. now apply IH.
Qed.

Lemma lower_ascii_keeps_slash (a : ascii) :
  Ascii.eqb (Str.lower_ascii a) "/" = Ascii.eqb a "/".
Proof. destruct a as [[] [] [] [] [] [] [] []]; reflexivity. Qed.

Lemma lower_ascii_keeps_dot (a : ascii) :
  Ascii.eqb (Str.lower_ascii a) "." = Ascii.eqb a ".".
Proof. destruct a as [[] [] [] [] [] [] [] []]; reflexivity. Qed.

Lemma occurs_lower (c : ascii) (s : string) :
  (forall a, Ascii.eqb (Str.lower_ascii a) c = Ascii.eqb a c) ->
  occurs c (Str.lower s) = occurs c s.
Proof.
  intros Hc. induction s as [|a s IH]; [reflexivity|]. cbn.
  now rewrite Hc, IH.
Qed.

(** X12.  The extension the renderer derives from the file name of an
    entry, to probe for an icon and to build the icon address, never
    holds a '/' or a '.', and is in lower case: the address stays a file
    name of the image directory. *)
Theorem derived_extension_is_clean (path : string) :
  let ext :=
    Str.lower (Str.lstrip "." (snd (OsPath.splitext path))) in
  occurs "/" ext = false
  /\ occurs "." ext = false
  /\ Str.lower ext = ext.
Proof.
  cbv zeta. rewrite SplitextFacts.extension_of_basename.
  rewrite (occurs_lower "/" _ lower_ascii_keeps_slash),
    (occurs_lower "." _ lower_ascii_keeps_dot), lower_twice.
  split; [|split; [|reflexivity]].
  - destruct (SplitextFacts.path_cut path) as (dir & _ & _ & Hbase).
    apply occurs_rpartition_none in Hbase. unfold extension_of.
    destruct (rpartition "." (basename path)) as [[u x]|] eqn:E;
      [|reflexivity].
    destruct (all_dots u); [reflexivity|].
    apply PathFacts.rpartition_app in E. rewrite E, occurs_app in Hbase.
    apply orb_false_iff in Hbase. destruct Hbase as [_ Hx].
    cbn in Hx. exact Hx.
  - unfold extension_of.
    destruct (rpartition "." (basename path)) as [[u x]|] eqn:E;
      [|reflexivity].
    destruct (all_dots u); [reflexivity|].
    eapply occurs_rpartition_none, PathFacts.rpartition_back, E.
Qed.

Section CountExtras.

Variable sizeof_fmt : Z -> string.
Variable isfile : string -> bool.
Variable module_dir : string.
Variable self : ZipRenderer.

Local Notation "'adds'" := (add_objs sizeof_fmt isfile module_dir self).

(** X13.  Entries only add nodes: going through a list of entries
    removes no node of the tree and adds at most one node for each
    segment of each entry. *)
Theorem entries_only_add_nodes (obj_list : list ZipInfo) :
  forall tree_root root',
    adds tree_root obj_list = Ok root' ->
    node_count tree_root <= node_count root'
    /\ node_count root'
       <= node_count tree_root
          + list_sum (map (fun obj =>
                             List.length (path_segments_of (filename obj)))
                          obj_list).
Proof.
  induction obj_list as [|obj rest IH]; intros tree_root root' H; cbn in H.
  - injection H as <-. cbn. lia.
  - destruct (add_obj sizeof_fmt isfile module_dir self tree_root obj)
      as [r1|] eqn:E; cbn in H; [|discriminate].
    apply add_obj_ok in E. destruct E as (c & cs & _ & Hi & ->).
    apply IH in H.
    apply insert_count_bounds in Hi; [|reflexivity|reflexivity].
    rewrite (node_count_children tree_root).
    rewrite node_count_children in H. cbn [children set_children] in H.
    cbn [map list_sum fold_right]. fold (list_sum (map (fun obj0 =>
      List.length (path_segments_of (filename obj0))) rest)).
    unfold list_sum in *. lia.
Qed.

End CountExtras.

Lemma entries_only_add_nodes_witness :
  add_objs sample_sizeof_fmt sample_isfile sample_dir sample_renderer
           sample_tree_a_b [sample_entry "a/c/d"; sample_entry "a/b/"]
  = Ok (sample_root
          [ {| text := "a"; icon := None;
               children :=
                 [ {| text := "b"; icon := Some "/assets/img/folder.png";
                      children := []; data := sample_data |};
                   {| text := "c"; icon := None;
                      children :=
                        [ {| text := "d";
                             icon := Some "/assets/img/file-ext-generic.png";
                             children := []; data := sample_data |} ];
                      data := None |} ];
               data := None |} ])
  /\ node_count sample_tree_a_b = 3
  /\ 3 <= 5 /\ 5 <= 3 + 5.
Proof.
  split; [reflexivity|]. split; [reflexivity|].
  exact (entries_only_add_nodes sample_sizeof_fmt sample_isfile sample_dir
           sample_renderer [sample_entry "a/c/d"; sample_entry "a/b/"]
           sample_tree_a_b _ eq_refl).
Defined.

(** * Where the icons are looked for *)

Lemma join2_plain (front : string) (c : ascii) (b : string) :
  c <> "/"%char ->
  Str.startswith b "/" = false ->
  OsPath.join2 (front ++ String c "") b = (front ++ String c "") ++ "/" ++ b.
Proof.
  intros Hc Hb. unfold OsPath.join2. rewrite Hb.
  assert (He : (front ++ String c "" =? "") = false)
    by (apply String.eqb_neq; destruct front; discriminate).
  assert (Hs : Str.endswith (front ++ String c "") "/" = false).
  { rewrite (PathFacts.endswith_slash _ c (PathFacts.last_char_app front c)).
    now apply Ascii.eqb_neq. }
  now rewrite He, Hs.
Qed.

(** X14.  [icon_exists] asks the file system for one file, inside the
    directory of the module: static/img/file-ext-<extension in lower
    case>.png under [module_dir], with a '/' put after [module_dir]
    unless it is empty or ends with one already. *)
Theorem icon_exists_probes_module_static_img
        (isfile : string -> bool) (module_dir ext : string) :
  icon_exists isfile module_dir ext
  = isfile (module_dir
              ++ (if (module_dir =? "") || Str.endswith module_dir "/"
                  then "" else "/")
              ++ "static/img/file-ext-" ++ Str.lower ext ++ ".png").
Proof.
  unfold icon_exists, OsPath.join. cbn [fold_left]. f_equal.
  set (f := "file-ext-" ++ Str.lower ext ++ ".png").
  assert (Hf : Str.startswith f "/" = false) by reflexivity.
  assert (H1 : OsPath.join2 module_dir "static"
               = (module_dir
                    ++ (if (module_dir =? "") || Str.endswith module_dir "/"
                        then "" else "/") ++ "stati") ++ String "c" "").
  { unfold OsPath.join2.
    change (Str.startswith "static" "/") with false. cbv iota.
    destruct ((module_dir =? "") || Str.endswith module_dir "/");
      rewrite !SplitextFacts.append_assoc; reflexivity. }
  rewrite H1.
  rewrite (join2_plain _ "c" "img") by (discriminate || reflexivity).
  set (p1 := (module_dir
                ++ (if (module_dir =? "") || Str.endswith module_dir "/"
                    then "" else "/") ++ "stati") ++ String "c" "").
  change (p1 ++ "/" ++ "img") with (p1 ++ "/im" ++ String "g" "").
  rewrite <- SplitextFacts.append_assoc.
  rewrite (join2_plain _ "g" f) by (discriminate || exact Hf).
  subst p1 f. rewrite !SplitextFacts.append_assoc.
  destruct ((module_dir =? "") || Str.endswith module_dir "/");
    reflexivity.
Qed.

(** * The order of the entries and the shape of the tree *)

Section OrderExtras.

Variable sizeof_fmt : Z -> string.
Variable isfile : string -> bool.
Variable module_dir : string.
Variable self : ZipRenderer.

Local Notation "'build'" :=
  (obj_list_to_tree sizeof_fmt isfile module_dir self).

(** X15.  The paths of the tree do not depend on the order of the
    entries, nor on how often an entry is repeated: two entry lists with
    the same entries, when both build, give trees with the same paths
    (the order of the children and the attributes may differ). *)
Theorem tree_paths_ignore_entry_order
        (l1 l2 : list ZipInfo) (root1 root2 : node) :
  build l1 = Ok [root1] ->
  build l2 = Ok [root2] ->
  (forall obj, In obj l1 <-> In obj l2) ->
  forall q, present q (children root1) = present q (children root2).
Proof.
  intros H1 H2 Hsame q.
  apply build_ok in H1. destruct H1 as (r1 & H1 & [= <-]).
  apply build_ok in H2. destruct H2 as (r2 & H2 & [= <-]).
  destruct q as [|s q]; [reflexivity|].
  rewrite (add_objs_present _ _ _ _ _ _ _ H1 (s :: q)) by discriminate.
  rewrite (add_objs_present _ _ _ _ _ _ _ H2 (s :: q)) by discriminate.
  f_equal. apply eq_true_iff_eq. rewrite !existsb_exists.
  split; intros (obj & Hin & Hp); exists obj; split; auto;
    now apply Hsame.
Qed.

End OrderExtras.

Lemma tree_paths_ignore_order_witness :
  exists root1 root2,
    sample_tree [sample_entry "a/b"; sample_entry "c/"] = Ok [root1]
    /\ sample_tree [sample_entry "c/"; sample_entry "a/b"; sample_entry "c/"]
       = Ok [root2]
    /\ (forall obj,
          In obj [sample_entry "a/b"; sample_entry "c/"]
          <-> In obj [sample_entry "c/"; sample_entry "a/b";
                      sample_entry "c/"])
    /\ map text (children root1) = ["a"; "c"]
    /\ map text (children root2) = ["c"; "a"]
    /\ forall q, present q (children root1) = present q (children root2).
Proof.
  assert (Hsame : forall obj,
             In obj [sample_entry "a/b"; sample_entry "c/"]
             <-> In obj [sample_entry "c/"; sample_entry "a/b";
                         sample_entry "c/"])
    by (intros obj; cbn; tauto).
  eexists. eexists. split; [reflexivity|]. split; [reflexivity|].
  split; [exact Hsame|]. split; [reflexivity|]. split; [reflexivity|].
  exact (tree_paths_ignore_entry_order sample_sizeof_fmt sample_isfile
           sample_dir sample_renderer
           [sample_entry "a/b"; sample_entry "c/"]
           [sample_entry "c/"; sample_entry "a/b"; sample_entry "c/"]
           _ _ eq_refl eq_refl Hsame).
Defined.
